(** * Command interpreter of the monitoring dashboard (AIChat / LiveChart)

    A shallow embedding of the local natural-language interpreter
    ([resolveParams], [interpretQuery]), of the remote delegate
    ([callOpenAI]) and of the action consumer ([onActions]) of the
    dashboard, together with the properties stated about them; and of
    the chat component ([send], the suggestion chips) and of the data
    the chart shows ([makeSeries], the live and history windows,
    [toggleParam]), with further properties read off the code.

    Strings.  A JavaScript string is a sequence of UTF-16 code units.  The
    embedding uses [string], whose characters are the code units 0..255
    (Basic Latin and Latin-1 Supplement).  On that range [toLowerCase],
    [trim], [includes] and the regular-expression classes [\s], [\d], [\b]
    and [.] are given exactly as ECMAScript defines them, and the range is
    closed under [toLowerCase] and [trim].  Statements quantified over
    "every query" therefore range over every string of such code units.
    The single reply that holds a character outside the range (an em dash)
    is output only; it is written as it stands in the source file. *)

From Stdlib Require Import Bool Arith Lia List ZArith Sorting.Sorted.
From Stdlib Require Import Strings.Ascii Strings.String.
Import ListNotations.

Open Scope string_scope.
Open Scope bool_scope.

(* ------------------------------------------------------------------ *)
(** ** JavaScript string primitives *)

Module JsString.

(** Code unit of a character. *)
Definition code (c : ascii) : nat := nat_of_ascii c.

Definition inRange (lo hi : nat) (c : ascii) : bool :=
  Nat.leb lo (code c) && Nat.leb (code c) hi.

(** WhiteSpace and LineTerminator code units below 256: TAB, LF, VT, FF,
    CR, SPACE and NBSP.  Used by [trim] and by the class [\s]. *)
Definition isWhiteSpace (c : ascii) : bool :=
  inRange 9 13 c || Nat.eqb (code c) 32 || Nat.eqb (code c) 160.

(** [\d] *)
Definition isDigit (c : ascii) : bool := inRange 48 57 c.

(** [\w]: the characters between which [\b] finds no boundary. *)
Definition isWordChar (c : ascii) : bool :=
  inRange 97 122 c || inRange 65 90 c || isDigit c || Nat.eqb (code c) 95.

(** LineTerminator code units below 256, excluded by [.] *)
Definition isLineTerminator (c : ascii) : bool :=
  Nat.eqb (code c) 10 || Nat.eqb (code c) 13.

(** Lower-case mapping of one code unit: A-Z, and the Latin-1 capitals
    U+00C0..U+00DE except the multiplication sign U+00D7. *)
Definition lowerChar (c : ascii) : ascii :=
  if inRange 65 90 c then ascii_of_nat (code c + 32)
  else if inRange 192 222 c && negb (Nat.eqb (code c) 215)
       then ascii_of_nat (code c + 32)
       else c.

(** [String.prototype.toLowerCase] *)
Fixpoint toLowerCase (s : string) : string :=
  match s with
  | EmptyString => EmptyString
  | String c t => String (lowerChar c) (toLowerCase t)
  end.

Fixpoint trimStart (s : string) : string :=
  match s with
  | EmptyString => EmptyString
  | String c t => if isWhiteSpace c then trimStart t else s
  end.

Fixpoint trimEnd (s : string) : string :=
  match s with
  | EmptyString => EmptyString
  | String c t =>
      match trimEnd t with
      | EmptyString => if isWhiteSpace c then EmptyString
                       else String c EmptyString
      | t' => String c t'
      end
  end.

(** [String.prototype.trim] *)
Definition trim (s : string) : string := trimEnd (trimStart s).

(** [String.prototype.startsWith] *)
Fixpoint startsWith (s p : string) {struct p} : bool :=
  match p, s with
  | EmptyString, _ => true
  | String _ _, EmptyString => false
  | String a p', String b s' => Ascii.eqb a b && startsWith s' p'
  end.

(** [String.prototype.includes] *)
Fixpoint includes (s sub : string) : bool :=
  startsWith s sub ||
  match s with
  | EmptyString => false
  | String _ t => includes t sub
  end.

(** [Array.prototype.includes] on an array of strings. *)
Definition arrayIncludes (l : list string) (x : string) : bool :=
  existsb (String.eqb x) l.

(** [Array.prototype.join] *)
Definition join (sep : string) (l : list string) : string :=
  String.concat sep l.

(** The first [n] characters of [s]. *)
Fixpoint take (n : nat) (s : string) : string :=
  match n, s with
  | S n', String c t => String c (take n' t)
  | _, _ => EmptyString
  end.

End JsString.
Import JsString.

(* ------------------------------------------------------------------ *)
(** ** Regular expressions

    The fragment of ECMAScript patterns that the interpreter's literals
    use, with the backtracking semantics of the language: a matcher maps a
    cursor to the list of cursors at which a match of the pattern can end,
    in the order in which the backtracking search reaches them.  [test]
    asks whether some start position has a match; [exec] returns the
    captures of the first match of the leftmost start position that has
    one.  The literals carry no flag, so matching is case-sensitive, keeps
    no [lastIndex] between calls, and [\b], [\s], [\d] and [.] have
    their plain meaning.  No literal has a group under [*] or [+], so the
    reset of captures at each iteration does not arise. *)

Module Regex.

Inductive regex : Type :=
| Chr (c : ascii)             (* a literal character *)
| Dot                         (* .   *)
| Space                       (* \s  *)
| Digit                       (* \d  *)
| WordB                       (* \b  *)
| Eps                         (* the empty pattern *)
| Cat (r1 r2 : regex)         (* r1r2 *)
| Alt (r1 r2 : regex)         (* r1|r2 *)
| Opt (r : regex)             (* r?  *)
| Star (r : regex)            (* r*  *)
| Plus (r : regex)            (* r+  *)
| Group (i : nat) (r : regex) (* the i-th capturing parenthesis *).

(** A position in the input: the character before it (if any), the
    input that remains, and the captures recorded so far. *)
Record cursor : Type := mkCursor {
  before : option ascii;
  rest : string;
  caps : list (nat * string)
}.

Definition remaining (cur : cursor) : nat := String.length (rest cur).

Definition wordBefore (cur : cursor) : bool :=
  match before cur with Some c => isWordChar c | None => false end.

Definition wordAfter (cur : cursor) : bool :=
  match rest cur with String c _ => isWordChar c | EmptyString => false end.

(** Consume one character satisfying [p]. *)
Definition eat (p : ascii -> bool) (cur : cursor) : list cursor :=
  match rest cur with
  | String c t => if p c then [mkCursor (Some c) t (caps cur)] else []
  | EmptyString => []
  end.

(** An iteration of a quantifier whose minimum is zero is rejected when
    it consumed nothing. *)
Definition advanced (cur cur' : cursor) : bool :=
  Nat.ltb (remaining cur') (remaining cur).

(** Greedy iteration of [step].  The fuel bounds the number of
    iterations; each one consumes a character, so [S (remaining cur)]
    is never exhausted (lemma [star_fuel] below). *)
Fixpoint star (step : cursor -> list cursor) (fuel : nat) (cur : cursor)
  : list cursor :=
  match fuel with
  | O => [cur]
  | S n => flat_map (star step n) (filter (advanced cur) (step cur)) ++ [cur]
  end.

Definition capture (i : nat) (cur cur' : cursor) : cursor :=
  mkCursor (before cur') (rest cur')
           ((i, take (remaining cur - remaining cur') (rest cur)) :: caps cur').

Fixpoint matcher (r : regex) (cur : cursor) : list cursor :=
  match r with
  | Chr c => eat (Ascii.eqb c) cur
  | Dot => eat (fun c => negb (isLineTerminator c)) cur
  | Space => eat isWhiteSpace cur
  | Digit => eat isDigit cur
  | WordB => if xorb (wordBefore cur) (wordAfter cur) then [cur] else []
  | Eps => [cur]
  | Cat r1 r2 => flat_map (matcher r2) (matcher r1 cur)
  | Alt r1 r2 => matcher r1 cur ++ matcher r2 cur
  | Opt r1 => filter (advanced cur) (matcher r1 cur) ++ [cur]
  | Star r1 => star (matcher r1) (S (remaining cur)) cur
  | Plus r1 =>
      flat_map (fun c => star (matcher r1) (S (remaining c)) c)
               (matcher r1 cur)
  | Group i r1 => map (capture i cur) (matcher r1 cur)
  end.

(** The search over start positions, leftmost first. *)
Fixpoint search (r : regex) (prev : option ascii) (s : string)
  : option cursor :=
  match matcher r (mkCursor prev s []) with
  | c :: _ => Some c
  | [] =>
      match s with
      | EmptyString => None
      | String a t => search r (Some a) t
      end
  end.

(** [RegExp.prototype.exec] / [String.prototype.match] without the g
    flag: the captures of the match, or [None] for [null]. *)
Definition exec (r : regex) (s : string) : option (list (nat * string)) :=
  option_map caps (search r None s).

(** [RegExp.prototype.test] *)
Definition test (r : regex) (s : string) : bool :=
  match search r None s with Some _ => true | None => false end.

(** [m[i]] of a match result; a group that did not take part gives
    [None] ([undefined]). *)
Fixpoint group (i : nat) (m : list (nat * string)) : option string :=
  match m with
  | [] => None
  | (j, s) :: m' => if Nat.eqb i j then Some s else group i m'
  end.

(** A sequence of literal characters. *)
Fixpoint lit (s : string) : regex :=
  match s with
  | EmptyString => Eps
  | String c EmptyString => Chr c
  | String c t => Cat (Chr c) (lit t)
  end.

(** Right-nested concatenation and alternation of a list of patterns. *)
Fixpoint seq (l : list regex) : regex :=
  match l with
  | [] => Eps
  | [r] => r
  | r :: l' => Cat r (seq l')
  end.

Fixpoint alt (l : list regex) : regex :=
  match l with
  | [] => Eps
  | [r] => r
  | r :: l' => Alt r (alt l')
  end.

End Regex.
Import Regex.

(* ------------------------------------------------------------------ *)
(** ** AIChat: the alias resolver, the interpreter and the remote delegate *)

Module AIChat.

Inductive Mode : Type := realtime | history.
Inductive LiveKey : Type := live1h | live12h | live24h.
Inductive HistKey : Type := yesterday | hist1week | hist1month.

(** [ChartType] is the union of the four literals line, spline, area and
    column.  The interpreter obtains its value from a capture of a
    regular expression and casts it, so the embedding keeps the string;
    [isChartType] is the membership test of the union. *)
Definition ChartType : Type := string.

Definition isChartType (s : string) : bool :=
  arrayIncludes ["line"; "spline"; "area"; "column"] s.

(** [DashboardAction]: one constructor for each value of the [type]
    discriminator, carrying the field that belongs to it. *)
Inductive DashboardAction : Type :=
| showOnlyParams (params : list string)
| showAllParams
| hideParam (param : string)
| showParam (param : string)
| setMode (mode : Mode)
| setLiveKey (liveKey : LiveKey)
| setHistKey (histKey : HistKey)
| setChartType (chartType : ChartType).

Record Interpretation : Type := mkInterpretation {
  reply : string;
  actions : list DashboardAction
}.

(** An object literal used as a map: its entries in insertion order,
    which is the order of [Object.keys] for keys that are not array
    indices. *)
Definition Dict : Type := list (string * string).

Definition keys (d : Dict) : list string := map fst d.

Fixpoint lookup (k : string) (d : Dict) : option string :=
  match d with
  | [] => None
  | (k', v) :: d' => if String.eqb k k' then Some v else lookup k d'
  end.

Definition PARAM_ALIASES : Dict :=
  [ ("tubing", "tubing"); ("tubing pressure", "tubing"); ("tub", "tubing");
    ("tbg", "tubing");
    ("a_ann", "a_ann"); ("a-ann", "a_ann"); ("a ann", "a_ann");
    ("a-annulus", "a_ann"); ("a annulus", "a_ann"); ("aann", "a_ann");
    ("b_ann", "b_ann"); ("b-ann", "b_ann"); ("b ann", "b_ann");
    ("b-annulus", "b_ann"); ("b annulus", "b_ann"); ("bann", "b_ann");
    ("flowline_p", "flowline_p"); ("flowline pressure", "flowline_p");
    ("fl pressure", "flowline_p"); ("fl press", "flowline_p");
    ("flowline p", "flowline_p"); ("flp", "flowline_p");
    ("fl-line pressure", "flowline_p");
    ("flowline_t", "flowline_t"); ("flowline temperature", "flowline_t");
    ("fl temperature", "flowline_t"); ("fl temp", "flowline_t");
    ("flowline t", "flowline_t"); ("flt", "flowline_t");
    ("fl-line temperature", "flowline_t"); ("temperature", "flowline_t");
    ("temp", "flowline_t") ].

Definition PRESSURE_PARAMS : list string :=
  ["tubing"; "a_ann"; "b_ann"; "flowline_p"].

Definition PARAM_LABELS : Dict :=
  [ ("tubing", "Tubing Pressure");
    ("a_ann", "A-Ann Pressure");
    ("b_ann", "B-Ann Pressure");
    ("flowline_p", "Flowline Pressure");
    ("flowline_t", "Flowline Temperature") ].

(** [Array.prototype.sort] with a comparator: a stable sort.  [x] is
    put before the first element that the comparator does not order
    before it, so elements that compare equal keep their order. *)
Fixpoint insert (cmp : string -> string -> Z) (x : string)
                (l : list string) : list string :=
  match l with
  | [] => [x]
  | y :: l' => if (cmp x y <=? 0)%Z then x :: l
               else y :: insert cmp x l'
  end.

Fixpoint sort (cmp : string -> string -> Z) (l : list string)
  : list string :=
  match l with
  | [] => []
  | x :: l' => insert cmp x (sort cmp l')
  end.

(** [(a, b) => b.length - a.length] *)
Definition byLengthDesc (a b : string) : Z :=
  (Z.of_nat (String.length b) - Z.of_nat (String.length a))%Z.

(** The loop body of [resolveParams].  [PARAM_ALIASES[alias]] is
    defined for every alias, the aliases being the keys of the table. *)
Definition resolveStep (q : string) (found : list string)
                       (alias : string) : list string :=
  match lookup alias PARAM_ALIASES with
  | Some pid =>
      if includes q alias && negb (arrayIncludes found pid)
      then found ++ [pid]
      else found
  | None => found
  end.

Definition resolveParams (q : string) : list string :=
  let sorted := sort byLengthDesc (keys PARAM_ALIASES) in
  fold_left (resolveStep q) sorted [].

(** [PARAM_LABELS[pid] ?? pid] *)
Definition labelOf (pid : string) : string :=
  match lookup pid PARAM_LABELS with Some l => l | None => pid end.

(** [resolved.map(pid => PARAM_LABELS[pid] ?? pid).join(", ")] *)
Definition names (resolved : list string) : string :=
  join ", " (map labelOf resolved).

(** *** The regular-expression literals of [interpretQuery] *)

Definition words (l : list string) : regex := alt (map lit l).

(** [/\b(spline|area|column|bar|line)\b/] *)
Definition re_chartType : regex :=
  seq [WordB; Group 1 (words ["spline"; "area"; "column"; "bar"; "line"]);
       WordB].

(** [/switch|change|use|set|convert|make/] *)
Definition re_verb : regex :=
  words ["switch"; "change"; "use"; "set"; "convert"; "make"].

(** [/chart|graph|plot|type|view/] *)
Definition re_chartNoun : regex :=
  words ["chart"; "graph"; "plot"; "type"; "view"].

(** [/\b(live|real.?time|realtime|real time|now)\b/] *)
Definition re_live : regex :=
  seq [WordB;
       Group 1 (alt [lit "live"; seq [lit "real"; Opt Dot; lit "time"];
                     lit "realtime"; lit "real time"; lit "now"]);
       WordB].

(** [/history/] *)
Definition re_history : regex := lit "history".

(** [/\b(1\s*h(our)?|12\s*h(our)?|24\s*h(our)?)\b/] *)
Definition re_liveHours : regex :=
  seq [WordB;
       Group 1 (alt
         [seq [lit "1"; Star Space; lit "h"; Opt (Group 2 (lit "our"))];
          seq [lit "12"; Star Space; lit "h"; Opt (Group 3 (lit "our"))];
          seq [lit "24"; Star Space; lit "h"; Opt (Group 4 (lit "our"))]]);
       WordB].

(** [/\b(1|12|24)\s*h/] *)
Definition re_num : regex :=
  seq [WordB; Group 1 (words ["1"; "12"; "24"]); Star Space; lit "h"].

(** [/last\s+(1|12|24)/] *)
Definition re_lastN : regex :=
  seq [lit "last"; Plus Space; Group 1 (words ["1"; "12"; "24"])].

(** [/\b(histor|yesterday|week|month|past|last\s+\d)\b/] *)
Definition re_historyWindow : regex :=
  seq [WordB;
       Group 1 (alt [lit "histor"; lit "yesterday"; lit "week"; lit "month";
                     lit "past"; seq [lit "last"; Plus Space; Digit]]);
       WordB].

(** [/yesterday/] *)
Definition re_yesterday : regex := lit "yesterday".

(** [/1\s*month|30\s*day|monthly/] *)
Definition re_month : regex :=
  alt [seq [lit "1"; Star Space; lit "month"];
       seq [lit "30"; Star Space; lit "day"];
       lit "monthly"].

(** [/1\s*week|7\s*day|weekly/] *)
Definition re_week : regex :=
  alt [seq [lit "1"; Star Space; lit "week"];
       seq [lit "7"; Star Space; lit "day"];
       lit "weekly"].

(** [/\b24\s*h(our)?s?\b/] *)
Definition re_24h : regex :=
  seq [WordB; lit "24"; Star Space; lit "h"; Opt (Group 1 (lit "our"));
       Opt (lit "s"); WordB].

(** [/\b12\s*h(our)?s?\b/] *)
Definition re_12h : regex :=
  seq [WordB; lit "12"; Star Space; lit "h"; Opt (Group 1 (lit "our"));
       Opt (lit "s"); WordB].

(** [/\b1\s*h(our)?\b/] *)
Definition re_1h : regex :=
  seq [WordB; lit "1"; Star Space; lit "h"; Opt (Group 1 (lit "our"));
       WordB].

(** [/\b(all|every(thing)?|show all|reset)\b/] *)
Definition re_showAll : regex :=
  seq [WordB;
       Group 1 (alt [lit "all";
                     seq [lit "every"; Opt (Group 2 (lit "thing"))];
                     lit "show all"; lit "reset"]);
       WordB].

(** [/hide|remove/] *)
Definition re_hideRemove : regex := words ["hide"; "remove"].

(** [/pressure.*(only|sensor|param)|only.*(pressure|press)|pressure\s+sensor/] *)
Definition re_pressureOnly : regex :=
  alt [seq [lit "pressure"; Star Dot;
            Group 1 (words ["only"; "sensor"; "param"])];
       seq [lit "only"; Star Dot; Group 2 (words ["pressure"; "press"])];
       seq [lit "pressure"; Plus Space; lit "sensor"]].

(** [/\b(hide|remove|turn off|disable|off)\b/] *)
Definition re_hide : regex :=
  seq [WordB;
       Group 1 (words ["hide"; "remove"; "turn off"; "disable"; "off"]);
       WordB].

(** [/\b(show|display|enable|turn on|on)\b/] *)
Definition re_show : regex :=
  seq [WordB;
       Group 1 (words ["show"; "display"; "enable"; "turn on"; "on"]);
       WordB].

(** [/only/] *)
Definition re_only : regex := lit "only".

(** [m[1]] of a successful match.  In the two patterns it is read from,
    group 1 is not optional, so it always took part (for the chart-type
    pattern this is lemma [exec_chartType_group1]). *)
Definition group1 (m : list (nat * string)) : string :=
  match group 1 m with Some s => s | None => EmptyString end.

(** [chartTypeMatch[1] === "bar" ? "column" : chartTypeMatch[1]] *)
Definition chartTypeOf (m : list (nat * string)) : ChartType :=
  if String.eqb (group1 m) "bar" then "column" else group1 m.

(** [keyMap[numMatch[1]] ?? "1h"] *)
Definition keyMap (k : string) : LiveKey :=
  if String.eqb k "1" then live1h
  else if String.eqb k "12" then live12h
  else if String.eqb k "24" then live24h
  else live1h.

(** The text of a [LiveKey], as the template literal prints it. *)
Definition liveKeyText (k : LiveKey) : string :=
  match k with live1h => "1h" | live12h => "12h" | live24h => "24h" end.

Definition dquote : string := String (ascii_of_nat 34) EmptyString.

(** The reply of the final fallback. *)
Definition unclearReply : string :=
  "I didn't quite understand that. Try asking things like "
  ++ dquote ++ "Show only pressure sensors" ++ dquote ++ ", "
  ++ dquote ++ "Switch to 1-week history" ++ dquote ++ ", or "
  ++ dquote ++ "Use spline chart" ++ dquote ++ ".".

Definition unclear : Interpretation := mkInterpretation unclearReply [].

(** [interpretQuery].  Every [return] of the source is a branch that
    gives the result; the statements after an [if] without [else] are
    the other branch.  [actions] is empty until the branch that returns
    pushes onto it, so each result lists exactly what that branch
    pushed. *)
Definition interpretQuery (raw : string) : Interpretation :=
  let q := trim (toLowerCase raw) in
  (* Chart type *)
  let chartTypeMatch := exec re_chartType q in
  match
    match chartTypeMatch with
    | Some m =>
        let ct := chartTypeOf m in
        if test re_verb q || test re_chartNoun q
        then Some (mkInterpretation
                     ("Switched to " ++ ct ++ " chart type.")
                     [setChartType ct])
        else None
    | None => None
    end
  with
  | Some result => result
  | None =>
  (* Mode: live / realtime *)
  if test re_live q && negb (test re_history q) then
    let liveMatch := exec re_liveHours q in
    let numMatch := exec re_num q in
    let lk := match numMatch with
              | Some m => keyMap (group1 m)
              | None => live1h
              end in
    if (match liveMatch with Some _ => true | None => false end)
       || test re_lastN q
    then mkInterpretation
           ("Switched to live mode — last " ++ liveKeyText lk ++ ".")
           [setLiveKey lk]
    else mkInterpretation "Switched to live (real-time) mode."
                          [setMode realtime]
  else
  (* History window *)
  if test re_historyWindow q then
    if test re_yesterday q
    then mkInterpretation "Showing yesterday's data." [setHistKey yesterday]
    else if test re_month q
    then mkInterpretation "Showing last 1-month history."
                          [setHistKey hist1month]
    else if test re_week q
    then mkInterpretation "Showing last 1-week history."
                          [setHistKey hist1week]
    else mkInterpretation "Switched to history mode." [setMode history]
  else
  (* Time window for live *)
  if test re_24h q
  then mkInterpretation "Showing last 24 hours of live data."
                        [setLiveKey live24h]
  else if test re_12h q
  then mkInterpretation "Showing last 12 hours of live data."
                        [setLiveKey live12h]
  else if test re_1h q
  then mkInterpretation "Showing last 1 hour of live data."
                        [setLiveKey live1h]
  else
  (* Show all *)
  if test re_showAll q && negb (test re_hideRemove q)
  then mkInterpretation "All parameters are now visible." [showAllParams]
  else
  (* Show only pressure sensors *)
  if test re_pressureOnly q || String.eqb q "pressure"
     || String.eqb q "pressures"
  then mkInterpretation "Showing only the 4 pressure parameters."
                        [showOnlyParams PRESSURE_PARAMS]
  else
  (* Hide / show specific param *)
  let isHide := test re_hide q in
  let isShow := test re_show q in
  let resolved := resolveParams q in
  match
    if Nat.ltb 0 (List.length resolved) then
      if isHide && negb isShow
      then Some (mkInterpretation ("Hidden: " ++ names resolved ++ ".")
                                  (map hideParam resolved))
      else if isShow || negb isHide then
        if test re_only q
        then Some (mkInterpretation
                     ("Showing only: " ++ names resolved ++ ".")
                     [showOnlyParams resolved])
        else Some (mkInterpretation ("Showing: " ++ names resolved ++ ".")
                                    (map showParam resolved))
      else None
    else None
  with
  | Some result => result
  | None =>
  (* Chart type, second pass: just the word alone *)
  match chartTypeMatch with
  | Some m =>
      let ct := chartTypeOf m in
      mkInterpretation ("Switched to " ++ ct ++ " chart.") [setChartType ct]
  | None =>
  (* Fallback *)
  unclear
  end
  end
  end.

(** *** The remote delegate

    [callOpenAI] reads the key from the build environment and may issue
    one [fetch].  The environment and the remote party are arguments:
    [apiKeyEnv] is the value of the environment variable ([None] for
    [undefined]) and [fetch] answers a request with one of the outcomes
    that the function tells apart.  The result carries, next to the
    interpretation, the requests that were issued. *)

Record Request : Type := mkRequest {
  authorization : string;   (* the Authorization header *)
  userContent : string      (* the content of the user message *)
}.

Inductive FetchOutcome : Type :=
| Rejected
    (* fetch, res.json() or JSON.parse throws, or the body has no
       choices array *)
| NotOk (status : nat) (errorCode errorMessage : option string)
    (* res.ok is false *)
| Parsed (result : Interpretation)
    (* res.ok is true and the content parses; it is returned as it is *).

Definition callOpenAI (apiKeyEnv : option string)
                      (fetch : Request -> FetchOutcome)
                      (userMessage : string)
  : Interpretation * list Request :=
  let apiKey := option_map trim apiKeyEnv in
  (* !apiKey || apiKey.startsWith("sk-...") *)
  match apiKey with
  | None => (interpretQuery userMessage, [])
  | Some key =>
      if String.eqb key EmptyString || startsWith key "sk-..."
      then (interpretQuery userMessage, [])
      else
        let req := mkRequest ("Bearer " ++ key) userMessage in
        match fetch req with
        | NotOk status code _ =>
            if Nat.eqb status 429
               || match code with
                  | Some c => String.eqb c "insufficient_quota"
                  | None => false
                  end
            then (interpretQuery userMessage, [req])
            else (* throw, caught by the enclosing try *)
                 (interpretQuery userMessage, [req])
        | Parsed result => (result, [req])
        | Rejected => (interpretQuery userMessage, [req])
        end
  end.

End AIChat.

(* ------------------------------------------------------------------ *)
(** ** LiveChart: the view-state and the action consumer *)

Module LiveChart.

(** [Set<string>]: the elements in insertion order, each once. *)
Module JsSet.

Definition t : Type := list string.

Definition has (s : t) (x : string) : bool := arrayIncludes s x.

Definition add (s : t) (x : string) : t :=
  if has s x then s else (s ++ [x])%list.

(** [new Set(iterable)] *)
Definition ofArray (l : list string) : t := fold_left add l [].

(** [Set.prototype.delete] *)
Definition delete (s : t) (x : string) : t :=
  filter (fun y => negb (String.eqb y x)) s.

End JsSet.

Inductive LiveFilterKey : Type := f1h | f12h | f24h.
Inductive HistoryFilterKey : Type := fYesterday | f1week | f1month | fCustom.

(** The action's [liveKey] and [histKey] are stored as they are; the
    types of the state contain those of the action. *)
Definition ofLiveKey (k : AIChat.LiveKey) : LiveFilterKey :=
  match k with
  | AIChat.live1h => f1h
  | AIChat.live12h => f12h
  | AIChat.live24h => f24h
  end.

Definition ofHistKey (k : AIChat.HistKey) : HistoryFilterKey :=
  match k with
  | AIChat.yesterday => fYesterday
  | AIChat.hist1week => f1week
  | AIChat.hist1month => f1month
  end.

(** The fields of a parameter definition that are text; the colour, the
    axis and the numeric range play no part in what follows. *)
Record ParamConfig : Type := mkParam {
  id : string;
  name : string;
  label : string
}.

Definition PARAMS : list ParamConfig :=
  [ mkParam "tubing" "Tub Pressure" "TBG Press";
    mkParam "a_ann" "A-Ann Pressure" "A-Ann Press";
    mkParam "b_ann" "B-Ann Pressure" "B-Ann Press";
    mkParam "flowline_p" "Fl-line Pressure" "FL Press";
    mkParam "flowline_t" "Fl-line Temperature" "FL Temp" ].

(** The state variables of the component that the consumer writes. *)
Record ViewState : Type := mkViewState {
  mode : AIChat.Mode;
  liveKey : LiveFilterKey;
  histKey : HistoryFilterKey;
  disabledParams : JsSet.t;
  chartType : AIChat.ChartType
}.

(** The state setters.  A setter called with a function applies it to
    the state left by the setters called before it. *)
Definition setMode (m : AIChat.Mode) (st : ViewState) : ViewState :=
  mkViewState m (liveKey st) (histKey st) (disabledParams st) (chartType st).

Definition setLiveKey (k : LiveFilterKey) (st : ViewState) : ViewState :=
  mkViewState (mode st) k (histKey st) (disabledParams st) (chartType st).

Definition setHistKey (k : HistoryFilterKey) (st : ViewState) : ViewState :=
  mkViewState (mode st) (liveKey st) k (disabledParams st) (chartType st).

Definition setDisabledParams (f : JsSet.t -> JsSet.t) (st : ViewState)
  : ViewState :=
  mkViewState (mode st) (liveKey st) (histKey st) (f (disabledParams st))
              (chartType st).

Definition setChartType (c : AIChat.ChartType) (st : ViewState)
  : ViewState :=
  mkViewState (mode st) (liveKey st) (histKey st) (disabledParams st) c.

(** The body of the [switch] on [a.type]. *)
Definition applyAction (st : ViewState) (a : AIChat.DashboardAction)
  : ViewState :=
  match a with
  | AIChat.showOnlyParams params =>
      setDisabledParams
        (fun _ => JsSet.ofArray
           (filter (fun i => negb (arrayIncludes params i)) (map id PARAMS)))
        st
  | AIChat.showAllParams => setDisabledParams (fun _ => JsSet.ofArray []) st
  | AIChat.hideParam param =>
      setDisabledParams (fun prev => JsSet.ofArray (prev ++ [param])%list) st
  | AIChat.showParam param =>
      setDisabledParams (fun prev => JsSet.delete (JsSet.ofArray prev) param)
                        st
  | AIChat.setMode m => setMode m st
  | AIChat.setLiveKey k => setLiveKey (ofLiveKey k) (setMode AIChat.realtime st)
  | AIChat.setHistKey k => setHistKey (ofHistKey k) (setMode AIChat.history st)
  | AIChat.setChartType c => setChartType c st
  end.

(** [onActions]: [actions.forEach] over the [switch]. *)
Definition onActions (actions : list AIChat.DashboardAction)
                     (st : ViewState) : ViewState :=
  fold_left applyAction actions st.

End LiveChart.

(* ------------------------------------------------------------------ *)
(** ** Vocabulary of the statements *)

Module Spec.
Import AIChat.

(** The first chart-type step commits: a chart-type word is present
    together with an action verb or a chart noun. *)
Definition chartTypeCommits (q : string) : bool :=
  match exec re_chartType q with
  | Some _ => test re_verb q || test re_chartNoun q
  | None => false
  end.

(** The condition of the show-only-pressure step. *)
Definition pressureGroup (q : string) : bool :=
  test re_pressureOnly q || String.eqb q "pressure"
  || String.eqb q "pressures".

(** No step before the per-parameter step returns on [q]. *)
Definition reachesParamStep (q : string) : bool :=
  negb (chartTypeCommits q)
  && negb (test re_live q && negb (test re_history q))
  && negb (test re_historyWindow q)
  && negb (test re_24h q) && negb (test re_12h q) && negb (test re_1h q)
  && negb (test re_showAll q && negb (test re_hideRemove q))
  && negb (pressureGroup q).

(** [q] holds nothing of the recognized vocabulary: no chart-type word,
    no live, history, time-window, show-all or pressure-group phrase, no
    polarity word and no alias. *)
Definition unrecognized (q : string) : bool :=
  match exec re_chartType q with Some _ => false | None => true end
  && negb (test re_live q)
  && negb (test re_historyWindow q)
  && negb (test re_24h q) && negb (test re_12h q) && negb (test re_1h q)
  && negb (test re_showAll q)
  && negb (pressureGroup q)
  && negb (test re_hide q) && negb (test re_show q)
  && match resolveParams q with [] => true | _ :: _ => false end.

(** The placeholder with which an unset key begins. *)
Definition placeholder : string := "sk-...".

(** The delegate is not configured: there is no key (the variable is
    not set, or is blank), or the key begins with the placeholder. *)
Definition NotConfigured (apiKeyEnv : option string) : Prop :=
  apiKeyEnv = None \/
  exists key, apiKeyEnv = Some key /\
              (trim key = EmptyString \/ startsWith key placeholder = true).

End Spec.

(* ------------------------------------------------------------------ *)
(** ** AIChat: the chat component

    The state of the component, the suggestion chips and the [send]
    handler.  [send] suspends once, at the call of the delegate; it is
    given as the part that runs before the suspension ([sendBegin]) and
    the part that runs after it ([sendResume]).  Each [Date.now()] is an
    argument.  A body that the remote party returns is taken to be a
    well-formed result, as the type of [callOpenAI] says.  The source
    does not check it: a body that parses to something else (null, an
    action without its field) can make [send] enter its [catch], which
    appends a message of role [error].  That path is outside this
    model; what is stated about an accepted [send] is stated for the
    answers of the local interpreter. *)

Module AIChatComponent.

Definition ALL_SUGGESTIONS : list string :=
  [ "Show only pressure sensors";
    "Switch to 1-week history";
    "Show flowline temperature only";
    "Switch to spline chart";
    "Show all parameters";
    "Show last 24 hours live data";
    "Switch to area chart";
    "Show yesterday's data";
    "Hide B-annulus pressure";
    "Switch to line chart";
    "Show last 12 hours";
    "Switch to column chart";
    "Show last 1 month history";
    "Show tubing pressure only";
    "Switch to realtime mode";
    "Show A-annulus and tubing only" ].

Definition CHIPS_VISIBLE : nat := 4.

Inductive Role : Type := user | assistant | error.

Record Message : Type := mkMessage {
  id : Z;
  role : Role;
  text : string;
  actions : option (list AIChat.DashboardAction)
}.

(** The state variables of the component ([open] plays no part). *)
Record ChatState : Type := mkChatState {
  input : string;
  loading : bool;
  usedChips : LiveChart.JsSet.t;
  messages : list Message
}.

(** [visibleChips]: the next unused chips, or the first chips again when
    fewer than [CHIPS_VISIBLE] are unused. *)
Definition visibleChips (used : LiveChart.JsSet.t) : list string :=
  let unused :=
    filter (fun s => negb (LiveChart.JsSet.has used s)) ALL_SUGGESTIONS in
  let pool := if Nat.leb CHIPS_VISIBLE (List.length unused)
              then unused else ALL_SUGGESTIONS in
  firstn CHIPS_VISIBLE pool.

(** [addMessage]: append the message with [Date.now()] as its id. *)
Definition addMessage (r : Role) (t : string)
           (a : option (list AIChat.DashboardAction)) (now : Z)
           (c : ChatState) : ChatState :=
  mkChatState (input c) (loading c) (usedChips c)
              (messages c ++ [mkMessage now r t a]).

Definition setInput (s : string) (c : ChatState) : ChatState :=
  mkChatState s (loading c) (usedChips c) (messages c).

Definition setLoading (b : bool) (c : ChatState) : ChatState :=
  mkChatState (input c) b (usedChips c) (messages c).

Definition setUsedChips (f : LiveChart.JsSet.t -> LiveChart.JsSet.t)
           (c : ChatState) : ChatState :=
  mkChatState (input c) (loading c) (f (usedChips c)) (messages c).

(** [send] up to the [await]: [None] when the handler returns at once,
    otherwise the trimmed query and the state with the user's message. *)
Definition sendBegin (txt : string) (now : Z) (c : ChatState)
  : option (string * ChatState) :=
  let query := trim txt in
  if String.eqb query EmptyString || loading c then None
  else Some (query,
             setLoading true
               (addMessage user query None now (setInput EmptyString c))).

(** The chat state beside the view-state of the parent, which [onActions]
    writes. *)
Record App : Type := mkApp {
  chat : ChatState;
  view : LiveChart.ViewState
}.

(** [send] after the [await]: the actions go to [onActions] when there
    are any, the reply is appended, and [finally] clears [loading]. *)
Definition sendResume (result : AIChat.Interpretation) (now : Z) (app : App)
  : App :=
  let view' :=
    if Nat.ltb 0 (List.length (AIChat.actions result))
    then LiveChart.onActions (AIChat.actions result) (view app)
    else view app in
  mkApp (setLoading false
           (addMessage assistant (AIChat.reply result)
                       (Some (AIChat.actions result)) now (chat app)))
        view'.

(** [send], when nothing else happens during the suspension.  The
    result carries the requests that the delegate issued. *)
Definition send (apiKeyEnv : option string)
           (fetch : AIChat.Request -> AIChat.FetchOutcome)
           (txt : string) (now1 now2 : Z) (app : App)
  : App * list AIChat.Request :=
  match sendBegin txt now1 (chat app) with
  | None => (app, [])
  | Some (query, c) =>
      let (result, requests) := AIChat.callOpenAI apiKeyEnv fetch query in
      (sendResume result now2 (mkApp c (view app)), requests)
  end.

(** [sendChip] *)
Definition sendChip (apiKeyEnv : option string)
           (fetch : AIChat.Request -> AIChat.FetchOutcome)
           (txt : string) (now1 now2 : Z) (app : App)
  : App * list AIChat.Request :=
  send apiKeyEnv fetch txt now1 now2
       (mkApp (setUsedChips
                 (fun prev => LiveChart.JsSet.ofArray (prev ++ [txt])%list)
                 (chat app))
              (view app)).

End AIChatComponent.

(* ------------------------------------------------------------------ *)
(** ** LiveChart: the data shown and the legend

    The sampled values are sums of sine waves, rounded to two decimals;
    they are real-number arithmetic and stay abstract: [value w count i]
    stands for the value at index [i] of a series of [count] points with
    the constants [w].  Time stamps are integers of milliseconds, far
    below 2^53, where the arithmetic of numbers is exact. *)

Module LiveChartData.

(** The constants of a series, as the source writes them. *)
Record Wave : Type := mkWave {
  base : string;
  amp1 : string;
  amp2 : string;
  phase : string
}.

Section Samples.

Variable V : Type.
Variable value : Wave -> nat -> nat -> V.

Definition Series : Type := list (Z * V).

(** [makeSeries]: [count] points, [stepMs] apart, from [startMs]. *)
Definition makeSeries (startMs : Z) (count : nat) (stepMs : Z) (w : Wave)
  : Series :=
  map (fun i => ((startMs + Z.of_nat i * stepMs)%Z, value w count i))
      (List.seq 0 count).

Definition buildLiveData (endMs : Z) (count : nat) (stepMs : Z)
  : list (string * Series) :=
  let startMs := (endMs - Z.of_nat count * stepMs)%Z in
  [ ("tubing", makeSeries startMs count stepMs
                 (mkWave "137.25" "0.15" "0.06" "0.0"));
    ("a_ann", makeSeries startMs count stepMs
                 (mkWave "136.9" "0.7" "0.3" "1.0"));
    ("b_ann", makeSeries startMs count stepMs
                 (mkWave "4.088" "0.025" "0.008" "2.1"));
    ("flowline_p", makeSeries startMs count stepMs
                 (mkWave "122.8" "0.6" "0.25" "3.2"));
    ("flowline_t", makeSeries startMs count stepMs
                 (mkWave "22.24" "0.12" "0.04" "0.8")) ].

(** [Date.UTC(2026, 1, 25, 19, 35, 0)] *)
Definition T0 : Z := 1772048100000%Z.

Definition buildHistoryData (daysBack : Z) (count : nat) (stepMs : Z)
  : list (string * Series) :=
  let start := (T0 - daysBack * 24 * 3600 * 1000)%Z in
  [ ("tubing", makeSeries start count stepMs
                 (mkWave "137.0" "0.2" "0.08" "0.5"));
    ("a_ann", makeSeries start count stepMs
                 (mkWave "136.5" "0.9" "0.35" "1.5"));
    ("b_ann", makeSeries start count stepMs
                 (mkWave "4.085" "0.03" "0.01" "2.6"));
    ("flowline_p", makeSeries start count stepMs
                 (mkWave "122.5" "0.8" "0.3" "3.7"));
    ("flowline_t", makeSeries start count stepMs
                 (mkWave "22.2" "0.15" "0.05" "1.3")) ].

Definition HISTORY_DATA : list (string * list (string * Series)) :=
  [ ("yesterday", buildHistoryData 1 96 (15 * 60 * 1000)%Z);
    ("1week", buildHistoryData 7 168 (60 * 60 * 1000)%Z);
    ("1month", buildHistoryData 30 180 (4 * 60 * 60 * 1000)%Z) ].

(** [obj[key]] on a map given by its entries. *)
Fixpoint get {A : Type} (k : string) (d : list (string * A)) : option A :=
  match d with
  | [] => None
  | (k', v) :: d' => if String.eqb k k' then Some v else get k d'
  end.

(** [configs] of the effect that rebuilds the live data: the number of
    points and the step of each live window. *)
Definition configs (k : LiveChart.LiveFilterKey) : nat * Z :=
  match k with
  | LiveChart.f1h => (60, (60 * 1000)%Z)
  | LiveChart.f12h => (144, (5 * 60 * 1000)%Z)
  | LiveChart.f24h => (144, (10 * 60 * 1000)%Z)
  end.

(** The effect on [mode] and [liveKey]: in realtime mode the live data
    are rebuilt to end at [now]; otherwise they stay. *)
Definition resetLiveData (st : LiveChart.ViewState) (now : Z)
           (liveSeriesData : list (string * Series))
  : list (string * Series) :=
  match LiveChart.mode st with
  | AIChat.realtime =>
      let (count, stepMs) := configs (LiveChart.liveKey st) in
      buildLiveData now count stepMs
  | AIChat.history => liveSeriesData
  end.

(** The text of the keys. *)
Definition liveKeyText (k : LiveChart.LiveFilterKey) : string :=
  match k with
  | LiveChart.f1h => "1h"
  | LiveChart.f12h => "12h"
  | LiveChart.f24h => "24h"
  end.





(** [xAxisRange]: the first and the last time stamp of the first
    parameter's series, when it has two points at least. *)
Definition xAxisRange (data : list (string * Series)) : option (Z * Z) :=
  let first := match LiveChart.PARAMS with
               | p :: _ => LiveChart.id p
               | [] => EmptyString
               end in
  let pts := match get first data with Some p => p | None => [] end in
  if Nat.ltb (List.length pts) 2 then None
  else match pts, rev pts with
       | p0 :: _, pn :: _ => Some (fst p0, fst pn)
       | _, _ => None
       end.

End Samples.

(** [toggleParam] *)
Definition toggleParam (i : string) (st : LiveChart.ViewState)
  : LiveChart.ViewState :=
  LiveChart.setDisabledParams
    (fun prev =>
       let next := LiveChart.JsSet.ofArray prev in
       if LiveChart.JsSet.has next i
       then LiveChart.JsSet.delete next i
       else LiveChart.JsSet.add next i)
    st.

(** [visible] of a series: [!disabledParams.has(p.id)] *)
Definition visible (st : LiveChart.ViewState) (i : string) : bool :=
  negb (LiveChart.JsSet.has (LiveChart.disabledParams st) i).

End LiveChartData.

(* ------------------------------------------------------------------ *)
(** ** The catalogue and the parameters an action names *)

Module Catalogue.

(** [PARAMS.map(p => p.id)] *)
Definition ids : list string := map LiveChart.id LiveChart.PARAMS.

(** The parameter identifiers that an action carries. *)
Definition actionParams (a : AIChat.DashboardAction) : list string :=
  match a with
  | AIChat.showOnlyParams params => params
  | AIChat.hideParam param => [param]
  | AIChat.showParam param => [param]
  | _ => []
  end.

End Catalogue.

(** A string that does not begin with white space, as [trimStart] leaves
    it. *)
Definition trimmedStart (s : string) : Prop :=
  match s with
  | EmptyString => True
  | String c _ => isWhiteSpace c = false
  end.

(** The length of a live window, in milliseconds. *)
Definition liveWindowMs (k : LiveChart.LiveFilterKey) : Z :=
  (match k with
   | LiveChart.f1h => 1
   | LiveChart.f12h => 12
   | LiveChart.f24h => 24
   end * 3600 * 1000)%Z.

(** The number of days that a history range names. *)
Definition historyDays (key : string) : Z :=
  if String.eqb key "yesterday" then 1%Z
  else if String.eqb key "1week" then 7%Z
  else if String.eqb key "1month" then 30%Z
  else 0%Z.

(** The pattern of "only" standing as a word of its own, [/\bonly\b/]:
    the reading of "the word only" by whole words.  The interpreter
    itself tests [/only/]. *)
Definition onlyWord : regex := Regex.seq [WordB; lit "only"; WordB].

(** The last character of a string. *)
Fixpoint lastChar (s : string) : option ascii :=
  match s with
  | EmptyString => None
  | String c EmptyString => Some c
  | String _ t => lastChar t
  end.

(** A word between [pre] and [post] stands alone: no word character
    touches it on either side. *)
Definition wholeWord (pre post : string) : Prop :=
  match lastChar pre with
  | Some c => isWordChar c = false
  | None => True
  end
  /\ match post with
     | String c _ => isWordChar c = false
     | EmptyString => True
     end.

(** The chart words of the chart-type pattern. *)
Definition chartWords : list string :=
  ["spline"; "area"; "column"; "bar"; "line"].

(* ------------------------------------------------------------------ *)
(** ** Properties of the string primitives and of the matcher *)

Import AIChat Spec.

Lemma trimEnd_cons (c : ascii) (t : string) :
  isWhiteSpace c = false -> trimEnd (String c t) = String c (trimEnd t).
Proof.
  intros Hc. simpl. rewrite Hc. destruct (trimEnd t); reflexivity.
Qed.

Lemma trimStart_cons (c : ascii) (t : string) :
  isWhiteSpace c = false -> trimStart (String c t) = String c t.
Proof. intros Hc. simpl. rewrite Hc. reflexivity. Qed.

(** A key that begins with the placeholder still begins with it after
    [trim]: the placeholder neither starts nor ends with white space. *)
Lemma startsWith_placeholder_trim (key : string) :
  startsWith key placeholder = true ->
  startsWith (trim key) placeholder = true.
Proof.
  unfold placeholder. intros H.
  do 6 (destruct key as [|? key]; [discriminate H|];
        cbn [startsWith] in H; apply andb_true_iff in H; destruct H as [E H];
        apply Ascii.eqb_eq in E; subst).
  unfold trim. rewrite trimStart_cons by reflexivity.
  repeat rewrite trimEnd_cons by reflexivity.
  reflexivity.
Qed.

Lemma filter_none {A : Type} (f : A -> bool) (l : list A) :
  (forall x, In x l -> f x = false) -> filter f l = [].
Proof.
  induction l as [|x l IH]; intros H; [reflexivity|].
  simpl. rewrite (H x (or_introl eq_refl)).
  apply IH. intros y Hy. apply H. right. exact Hy.
Qed.

(** Fuel beyond the number of remaining characters is never used: an
    iteration that is kept has consumed a character. *)
Lemma star_fuel (step : cursor -> list cursor) :
  forall n m cur, remaining cur <= n -> n <= m ->
                  star step m cur = star step n cur.
Proof.
  induction n as [|n IH]; intros m cur Hr Hm.
  - destruct m as [|m]; [reflexivity|]. simpl.
    replace (filter (advanced cur) (step cur)) with (@nil cursor);
      [reflexivity|].
    symmetry. apply filter_none. intros c' _.
    unfold advanced. apply Nat.ltb_ge. lia.
  - destruct m as [|m]; [lia|]. simpl. f_equal.
    rewrite !flat_map_concat_map. f_equal.
    apply map_ext_in. intros c' Hin.
    apply filter_In in Hin. destruct Hin as [_ Hadv].
    unfold advanced in Hadv. apply Nat.ltb_lt in Hadv.
    apply IH; lia.
Qed.

(** The fuel that [matcher] gives to an iteration is enough: any larger
    fuel yields the same matches. *)
Corollary matcher_star_fuel (r : regex) (cur : cursor) (extra : nat) :
  matcher (Star r) cur = star (matcher r) (S (remaining cur) + extra) cur.
Proof.
  change (matcher (Star r) cur)
    with (star (matcher r) (S (remaining cur)) cur).
  symmetry. apply star_fuel; lia.
Qed.

(** *** What a match consumes and captures *)

Lemma eat_In (p : ascii -> bool) (cur c' : cursor) :
  In c' (eat p cur) ->
  exists a, p a = true /\ rest cur = String a (rest c')
            /\ caps c' = caps cur.
Proof.
  unfold eat. destruct (rest cur) as [|a t]; [intros []|].
  destruct (p a) eqn:Hp; [|intros []].
  intros [<- | []]. exists a. repeat split. exact Hp.
Qed.

(** A literal consumes itself and records no capture. *)
Lemma matcher_lit (s : string) :
  forall cur c', In c' (matcher (lit s) cur) ->
                 rest cur = s ++ rest c' /\ caps c' = caps cur.
Proof.
  induction s as [|a t IH]; intros cur c' Hin.
  - destruct Hin as [<- | []]. split; reflexivity.
  - destruct t as [|b t'].
    + apply eat_In in Hin. destruct Hin as [x [Hx [Hr Hc]]].
      apply Ascii.eqb_eq in Hx. subst x. split; assumption.
    + change (lit (String a (String b t')))
        with (Cat (Chr a) (lit (String b t'))) in Hin.
      cbn [matcher] in Hin. apply in_flat_map in Hin.
      destruct Hin as [c1 [H1 H2]].
      apply eat_In in H1. destruct H1 as [x [Hx [Hr Hc]]].
      apply Ascii.eqb_eq in Hx. subst x.
      apply IH in H2. destruct H2 as [Hr2 Hc2].
      rewrite Hr, Hr2, Hc2, Hc. split; reflexivity.
Qed.

(** An alternation of literals consumes one of them. *)
Lemma matcher_words (l : list string) :
  forall cur c', l <> [] -> In c' (matcher (words l) cur) ->
                 exists s, In s l /\ rest cur = s ++ rest c'.
Proof.
  unfold words.
  induction l as [|s l IH]; intros cur c' Hne Hin; [congruence|].
  destruct l as [|s' l'].
  - exists s. split; [left; reflexivity|].
    apply (matcher_lit s cur c'). exact Hin.
  - change (alt (map lit (s :: s' :: l')))
      with (Alt (lit s) (alt (map lit (s' :: l')))) in Hin.
    cbn [matcher] in Hin. apply in_app_or in Hin.
    destruct Hin as [Hin | Hin].
    + exists s. split; [left; reflexivity|].
      apply (matcher_lit s cur c'). exact Hin.
    + destruct (IH cur c') as [x [Hx Hr]]; [discriminate | exact Hin |].
      exists x. split; [right; exact Hx | exact Hr].
Qed.

Lemma length_append (s r : string) :
  String.length (s ++ r) = String.length s + String.length r.
Proof. induction s as [|a s IH]; simpl; [reflexivity | rewrite IH; reflexivity]. Qed.

Lemma take_length_append (s r : string) : take (String.length s) (s ++ r) = s.
Proof.
  induction s as [|a s IH]; simpl; [destruct r; reflexivity|].
  rewrite IH. reflexivity.
Qed.

Lemma take_prefix (s r : string) :
  take (String.length (s ++ r) - String.length r) (s ++ r) = s.
Proof.
  rewrite length_append.
  replace (String.length s + String.length r - String.length r)
    with (String.length s) by lia.
  apply take_length_append.
Qed.

(** A successful search ends a match that started at some position. *)
Lemma search_In (r : regex) (s : string) :
  forall prev c, search r prev s = Some c ->
                 exists prev' s', In c (matcher r (mkCursor prev' s' [])).
Proof.
  induction s as [|a t IH]; intros prev c H; simpl in H.
  - destruct (matcher r (mkCursor prev "" [])) as [|c0 l] eqn:E;
      [discriminate H|].
    injection H as <-. exists prev, "". rewrite E. left. reflexivity.
  - destruct (matcher r (mkCursor prev (String a t) [])) as [|c0 l] eqn:E.
    + apply IH in H. exact H.
    + injection H as <-. exists prev, (String a t). rewrite E.
      left. reflexivity.
Qed.

Lemma wordB_In (cur c : cursor) : In c (matcher WordB cur) -> c = cur.
Proof.
  cbn [matcher]. destruct (xorb _ _); [|intros []].
  intros [<- | []]. reflexivity.
Qed.

(** In a pattern [\b(w1|...|wn)\b], group 1 always takes part and holds
    the alternative that matched. *)
Lemma bounded_word_group1 (l : list string) (cur c : cursor) :
  l <> [] ->
  In c (matcher (Cat WordB (Cat (Group 1 (words l)) WordB)) cur) ->
  exists s, In s l /\ group 1 (caps c) = Some s.
Proof.
  intros Hne Hin.
  change (In c (flat_map
                  (fun c1 => flat_map (matcher WordB)
                               (map (capture 1 c1) (matcher (words l) c1)))
                  (matcher WordB cur))) in Hin.
  apply in_flat_map in Hin. destruct Hin as [c1 [H1 H2]].
  apply wordB_In in H1. subst c1.
  apply in_flat_map in H2. destruct H2 as [c2 [H2 H3]].
  apply wordB_In in H3. subst c2.
  apply in_map_iff in H2. destruct H2 as [c' [<- Hc']].
  destruct (matcher_words l cur c' Hne Hc') as [s [Hs Hr]].
  exists s. split; [exact Hs|].
  unfold capture, remaining. cbn [caps group Nat.eqb].
  rewrite Hr, take_prefix. reflexivity.
Qed.

(** [chartTypeMatch[1]] is one of the five chart words. *)
Lemma exec_chartType_group1 (q : string) (m : list (nat * string)) :
  exec re_chartType q = Some m ->
  In (group1 m) ["spline"; "area"; "column"; "bar"; "line"].
Proof.
  unfold exec. destruct (search re_chartType None q) as [c|] eqn:E;
    [|discriminate].
  intros H. injection H as <-.
  apply search_In in E. destruct E as [prev [s Hin]].
  apply bounded_word_group1 in Hin; [|discriminate].
  destruct Hin as [w [Hw Hg]]. unfold group1. rewrite Hg. exact Hw.
Qed.

(* ------------------------------------------------------------------ *)
(** ** The alias resolver *)

Lemma resolveStep_NoDup (q : string) (found : list string) (alias : string) :
  NoDup found -> NoDup (resolveStep q found alias).
Proof.
  intros Hnd. unfold resolveStep.
  destruct (lookup alias PARAM_ALIASES) as [pid|]; [|exact Hnd].
  destruct (includes q alias); [|exact Hnd].
  destruct (arrayIncludes found pid) eqn:Hin; [exact Hnd|].
  cbn [andb negb].
  apply NoDup_app; [exact Hnd | apply NoDup_cons; [intros [] | constructor] |].
  intros x Hx [Hp | []]. subst x.
  unfold arrayIncludes in Hin.
  assert (existsb (String.eqb pid) found = true); [|congruence].
  apply existsb_exists. exists pid. split; [exact Hx | apply String.eqb_refl].
Qed.

(** The resolver never returns an identifier twice. *)
Lemma resolveParams_NoDup (q : string) : NoDup (resolveParams q).
Proof.
  unfold resolveParams.
  generalize (sort byLengthDesc (keys PARAM_ALIASES)).
  assert (Hnil : NoDup (@nil string)) by constructor.
  revert Hnil. generalize (@nil string).
  intros found Hnd l. revert found Hnd.
  induction l as [|alias l IH]; intros found Hnd; [exact Hnd|].
  simpl. apply IH. apply resolveStep_NoDup. exact Hnd.
Qed.

(** The scan goes through the aliases from the longest to the shortest. *)
Lemma sorted_aliases_longest_first :
  StronglySorted (fun a b => String.length b <= String.length a)
                 (sort byLengthDesc (keys PARAM_ALIASES)).
Proof.
  vm_compute sort.
  repeat (apply SSorted_cons;
          [| repeat (apply Forall_cons; [vm_compute; lia|]); apply Forall_nil]).
  apply SSorted_nil.
Qed.

(** C2 (as stated, refuted): the resolver does not return [flowline_p]
    before [flowline_t] for "flowline pressure and flowline temperature". *)
Lemma resolve_flowline_not_pressure_first :
  resolveParams "flowline pressure and flowline temperature"
  <> ["flowline_p"; "flowline_t"].
Proof. vm_compute. discriminate. Qed.

(** C2 (amended): resolving "flowline pressure and flowline temperature"
    yields exactly the two identifiers [flowline_t] and [flowline_p], in
    the order of the scan from the longest alias ("flowline temperature"
    is longer than "flowline pressure"), and without duplicates. *)
Theorem resolve_flowline_pair :
  resolveParams "flowline pressure and flowline temperature"
  = ["flowline_t"; "flowline_p"]
  /\ NoDup (resolveParams "flowline pressure and flowline temperature")
  /\ String.length "flowline pressure" < String.length "flowline temperature".
Proof.
  split; [vm_compute; reflexivity|].
  split; [apply resolveParams_NoDup | vm_compute; lia].
Qed.

(* ------------------------------------------------------------------ *)
(** ** The interpreter on the canonical queries *)

(** The history step is not entered by a query that holds "history": the
    stem "histor" of the pattern must end at a word boundary, and in
    "history" it is followed by a letter. *)
Lemma history_word_not_a_history_window :
  test re_historyWindow "switch to history mode" = false
  /\ test re_historyWindow "switch to histor mode" = true.
Proof. split; vm_compute; reflexivity. Qed.

(** C1 (the code at the query of the claim): for "switch to history mode"
    the interpreter returns the fallback result, with no action, and so
    not the single [setMode] action with mode [history] that the claim
    requires. *)
Theorem switch_to_history_mode_is_unclear :
  interpretQuery "switch to history mode" = unclear
  /\ actions (interpretQuery "switch to history mode")
     <> [setMode history].
Proof. split; [vm_compute; reflexivity | vm_compute; discriminate]. Qed.

(** C3: when the lower-cased, trimmed input is "pressure", the result is
    one [showOnlyParams] action over the four pressure identifiers
    tubing, a_ann, b_ann and flowline_p, and flowline_t is not among
    them. *)
Theorem pressure_shows_only_pressure_group (raw : string) :
  trim (toLowerCase raw) = "pressure" ->
  interpretQuery raw
  = mkInterpretation "Showing only the 4 pressure parameters."
      [showOnlyParams ["tubing"; "a_ann"; "b_ann"; "flowline_p"]]
  /\ PRESSURE_PARAMS = ["tubing"; "a_ann"; "b_ann"; "flowline_p"]
  /\ ~ In "flowline_t" PRESSURE_PARAMS.
Proof.
  intros Hq. split; [|split].
  - unfold interpretQuery. rewrite Hq. vm_compute. reflexivity.
  - reflexivity.
  - intros [H | [H | [H | [H | []]]]]; discriminate H.
Qed.

Lemma pressure_shows_only_pressure_group_witness :
  trim (toLowerCase "  PresSURE ") = "pressure"
  /\ interpretQuery "  PresSURE "
     = mkInterpretation "Showing only the 4 pressure parameters."
         [showOnlyParams ["tubing"; "a_ann"; "b_ann"; "flowline_p"]].
Proof.
  split; [reflexivity|].
  apply (pressure_shows_only_pressure_group "  PresSURE "). reflexivity.
Defined.

(** C4: for "hide b-annulus and tubing" the result is [hideParam b_ann]
    followed by [hideParam tubing], which is the order of the resolver,
    and the reply holds the two labels "B-Ann Pressure" and "Tubing
    Pressure" joined by a comma. *)
Theorem hide_b_annulus_and_tubing :
  let r := interpretQuery "hide b-annulus and tubing" in
  actions r = [hideParam "b_ann"; hideParam "tubing"]
  /\ actions r = map hideParam (resolveParams "hide b-annulus and tubing")
  /\ reply r = "Hidden: " ++ labelOf "b_ann" ++ ", " ++ labelOf "tubing" ++ "."
  /\ labelOf "b_ann" = "B-Ann Pressure"
  /\ labelOf "tubing" = "Tubing Pressure"
  /\ includes (reply r) "B-Ann Pressure, Tubing Pressure" = true.
Proof. vm_compute. repeat split; reflexivity. Qed.

(* ------------------------------------------------------------------ *)
(** ** The interpreter on every query *)

(** Split a conjunction of boolean tests into its members and turn each
    [negb b = true] into [b = false]. *)
Ltac split_tests H :=
  repeat (apply andb_true_iff in H;
          let H' := fresh "H" in destruct H as [H H']);
  repeat match goal with
         | H0 : negb _ = true |- _ => apply negb_true_iff in H0
         end.

(** Replace in the goal every test that a hypothesis shows to fail. *)
Ltac fail_tests :=
  repeat match goal with
         | H0 : ?b = false |- _ => rewrite H0; clear H0
         end.

(** Case analysis on a test of the interpreter whose outcome selects a
    branch, innermost test first. *)
Ltac branch :=
  match goal with
  | |- context [match ?x with Some _ => _ | None => _ end] =>
      lazymatch x with
      | context [match _ with Some _ => _ | None => _ end] => fail
      | context [if _ then _ else _] => fail
      | _ => destruct x
      end
  | |- context [if ?b then _ else _] =>
      lazymatch b with
      | context [match _ with Some _ => _ | None => _ end] => fail
      | context [if _ then _ else _] => fail
      | _ => destruct b
      end
  end; cbv beta iota.

(** C5: a query that holds nothing of the recognized vocabulary gets the
    empty action list and the fixed guidance reply, the same for all such
    queries. *)
Theorem unrecognized_is_unclear (raw : string) :
  unrecognized (trim (toLowerCase raw)) = true ->
  interpretQuery raw = unclear
  /\ actions (interpretQuery raw) = []
  /\ reply (interpretQuery raw) = unclearReply.
Proof.
  intros H.
  assert (E : interpretQuery raw = unclear).
  { revert H. unfold unrecognized, pressureGroup, interpretQuery. cbv zeta.
    generalize (trim (toLowerCase raw)). intros q H.
    split_tests H.
    destruct (exec re_chartType q); [discriminate H|].
    destruct (resolveParams q); [|discriminate].
    fail_tests. reflexivity. }
  rewrite E. repeat split.
Qed.

Lemma unrecognized_is_unclear_witness :
  unrecognized (trim (toLowerCase "xyzzy")) = true
  /\ interpretQuery "xyzzy" = unclear.
Proof.
  split; [vm_compute; reflexivity|].
  apply (unrecognized_is_unclear "xyzzy"). vm_compute. reflexivity.
Defined.

(** C6: two calls of the interpreter on the same query give the same
    result: the same reply and the same actions, in number and in
    order. *)
Theorem interpretQuery_deterministic (raw1 raw2 : string) :
  raw1 = raw2 ->
  interpretQuery raw1 = interpretQuery raw2
  /\ reply (interpretQuery raw1) = reply (interpretQuery raw2)
  /\ List.length (actions (interpretQuery raw1))
     = List.length (actions (interpretQuery raw2))
  /\ actions (interpretQuery raw1) = actions (interpretQuery raw2).
Proof. intros ->. repeat split. Qed.

Lemma interpretQuery_deterministic_witness :
  interpretQuery "Hide tubing" = interpretQuery "Hide tubing"
  /\ actions (interpretQuery "Hide tubing") = [hideParam "tubing"].
Proof.
  split; [|vm_compute; reflexivity].
  apply (interpretQuery_deterministic "Hide tubing" "Hide tubing").
  reflexivity.
Defined.

(** The result depends on the query only through its lower-cased,
    trimmed form. *)
Lemma interpretQuery_normal_form (raw1 raw2 : string) :
  trim (toLowerCase raw1) = trim (toLowerCase raw2) ->
  interpretQuery raw1 = interpretQuery raw2.
Proof. intros H. unfold interpretQuery. rewrite H. reflexivity. Qed.

(** C8: for every query the interpreter returns a result, and the reply
    of the result is not empty. *)
Theorem interpretQuery_total_reply_nonempty (raw : string) :
  exists r : Interpretation,
    interpretQuery raw = r /\ reply r <> EmptyString
    /\ 0 < String.length (reply r).
Proof.
  exists (interpretQuery raw). split; [reflexivity|].
  assert (H : reply (interpretQuery raw) <> EmptyString).
  { unfold interpretQuery. cbv zeta.
    generalize (trim (toLowerCase raw)). intros q.
    repeat branch; cbn [reply append]; discriminate. }
  split; [exact H|].
  destruct (reply (interpretQuery raw)); [contradiction | simpl; lia].
Qed.

(** The value computed from the capture is a [ChartType]: the cast of the
    source is sound. *)
Lemma chartTypeOf_closed (q : string) (m : list (nat * string)) :
  exec re_chartType q = Some m -> isChartType (chartTypeOf m) = true.
Proof.
  intros H. apply exec_chartType_group1 in H. unfold chartTypeOf.
  destruct H as [<- | [<- | [<- | [<- | [<- | []]]]]]; reflexivity.
Qed.

(** X11: every [setChartType] action of the interpreter carries one of
    line, spline, area and column. *)
Lemma interpretQuery_chartType_closed (raw : string) (c : ChartType) :
  In (setChartType c) (actions (interpretQuery raw)) ->
  isChartType c = true.
Proof.
  unfold interpretQuery. cbv zeta.
  generalize (trim (toLowerCase raw)). intros q.
  destruct (exec re_chartType q) as [m|] eqn:E.
  - pose proof (chartTypeOf_closed q m E) as Hct.
    repeat branch; cbn [actions];
      try (intros [H | []]; (discriminate H || (injection H as <-; exact Hct)));
      intros H; apply in_map_iff in H; destruct H as [x [H _]];
      discriminate H.
  - repeat branch; cbn [actions];
      try (intros [H | []]; discriminate H);
      try (intros []);
      intros H; apply in_map_iff in H; destruct H as [x [H _]];
      discriminate H.
Qed.

(** C10 (as stated, refuted): a query can reach the per-parameter step,
    resolve a parameter and hold no hide word, no show word and not the
    word "only", and still not get one [showParam] per resolved
    parameter: in "tubing commonly" the letters of "only" stand inside
    another word, and the result is one [showOnlyParams] action. *)
Lemma bare_mention_with_only_inside_a_word :
  ~ (forall raw : string,
        let q := trim (toLowerCase raw) in
        reachesParamStep q = true ->
        resolveParams q <> [] ->
        test re_hide q = false ->
        test re_show q = false ->
        test onlyWord q = false ->
        AIChat.actions (interpretQuery raw)
        = map showParam (resolveParams q)).
Proof.
  intros H.
  assert (Hres : resolveParams (trim (toLowerCase "tubing commonly")) <> [])
    by (vm_compute; discriminate).
  specialize (H "tubing commonly" eq_refl Hres eq_refl eq_refl eq_refl).
  vm_compute in H. discriminate H.
Qed.

(** C10 (amended): when no step before the per-parameter step returns,
    the resolver finds at least one parameter and the query holds no
    hide word, no show word and nowhere the letters "only" (not even
    inside a longer word), the result is one [showParam] per resolved
    parameter, in the order of the resolver. *)
Theorem bare_mention_shows (raw : string) :
  let q := trim (toLowerCase raw) in
  reachesParamStep q = true ->
  resolveParams q <> [] ->
  test re_hide q = false ->
  test re_show q = false ->
  test re_only q = false ->
  interpretQuery raw
  = mkInterpretation ("Showing: " ++ names (resolveParams q) ++ ".")
                     (map showParam (resolveParams q)).
Proof.
  unfold reachesParamStep, chartTypeCommits, pressureGroup, interpretQuery.
  cbv zeta. generalize (trim (toLowerCase raw)).
  intros q H Hres Hhide Hshow Honly.
  split_tests H.
  assert (Hlen : Nat.ltb 0 (List.length (resolveParams q)) = true).
  { destruct (resolveParams q) eqn:E; [congruence | reflexivity]. }
  rewrite Hlen.
  destruct (exec re_chartType q); fail_tests; reflexivity.
Qed.

(** The pattern for "only" has no word boundary: the letters inside a
    longer word select the show-only branch as well. *)
Lemma only_inside_a_word :
  test re_only "tubing commonly" = true
  /\ interpretQuery "tubing commonly"
     = mkInterpretation "Showing only: Tubing Pressure."
                        [showOnlyParams ["tubing"]].
Proof. split; vm_compute; reflexivity. Qed.

Lemma bare_mention_shows_witness :
  reachesParamStep "tubing and temperature" = true
  /\ resolveParams "tubing and temperature" = ["flowline_t"; "tubing"]
  /\ test re_only "tubing and temperature" = false
  /\ interpretQuery " Tubing and Temperature"
     = mkInterpretation "Showing: Flowline Temperature, Tubing Pressure."
                        [showParam "flowline_t"; showParam "tubing"].
Proof.
  split; [vm_compute; reflexivity|].
  split; [vm_compute; reflexivity|].
  split; [vm_compute; reflexivity|].
  apply (bare_mention_shows " Tubing and Temperature");
    vm_compute; (reflexivity || discriminate).
Defined.

(* ------------------------------------------------------------------ *)
(** ** The remote delegate *)

(** The guard of [callOpenAI], as the code tests it, sends the query to
    the interpreter and issues no request. *)
Lemma callOpenAI_guard (apiKeyEnv : option string)
      (fetch : Request -> FetchOutcome) (userMessage : string) :
  match option_map trim apiKeyEnv with
  | None => True
  | Some key => key = EmptyString \/ startsWith key placeholder = true
  end ->
  callOpenAI apiKeyEnv fetch userMessage = (interpretQuery userMessage, []).
Proof.
  unfold callOpenAI, placeholder.
  destruct (option_map trim apiKeyEnv) as [key|]; [|reflexivity].
  intros [-> | ->]; [reflexivity|].
  rewrite orb_true_r. reflexivity.
Qed.

(** C7: when the delegate is not configured, its result is the one of
    the interpreter on the same input, whatever the remote party would
    answer, and no request is issued. *)
Theorem callOpenAI_not_configured (apiKeyEnv : option string)
        (fetch : Request -> FetchOutcome) (userMessage : string) :
  NotConfigured apiKeyEnv ->
  fst (callOpenAI apiKeyEnv fetch userMessage) = interpretQuery userMessage
  /\ snd (callOpenAI apiKeyEnv fetch userMessage) = [].
Proof.
  intros H.
  rewrite callOpenAI_guard; [split; reflexivity|].
  destruct H as [-> | [key [-> [Hkey | Hkey]]]]; [exact I | |].
  - left. exact Hkey.
  - right. apply startsWith_placeholder_trim. exact Hkey.
Qed.

Lemma callOpenAI_not_configured_witness :
  NotConfigured (Some "sk-...your-key-here")
  /\ fst (callOpenAI (Some "sk-...your-key-here")
                     (fun _ => Parsed (mkInterpretation "remote" []))
                     "Show all parameters")
     = mkInterpretation "All parameters are now visible." [showAllParams].
Proof.
  assert (H : NotConfigured (Some "sk-...your-key-here")).
  { right. exists "sk-...your-key-here".
    split; [reflexivity | right; reflexivity]. }
  split; [exact H|].
  rewrite (proj1 (callOpenAI_not_configured
                    (Some "sk-...your-key-here")
                    (fun _ => Parsed (mkInterpretation "remote" []))
                    "Show all parameters" H)).
  vm_compute. reflexivity.
Defined.

(** With a key that is configured the remote party is asked once, and a
    parsed answer is returned as it is. *)
Lemma callOpenAI_active_example :
  callOpenAI (Some " sk-live ")
             (fun _ => Parsed (mkInterpretation "remote" [showAllParams]))
             "xyzzy"
  = (mkInterpretation "remote" [showAllParams],
     [mkRequest "Bearer sk-live" "xyzzy"]).
Proof. vm_compute. reflexivity. Qed.

(* ------------------------------------------------------------------ *)
(** ** The action consumer *)

Import LiveChart.

(** C9 (as stated, refuted): [setLiveKey] does not leave the mode as it
    was; in history mode it switches the mode to realtime. *)
Lemma setLiveKey_changes_mode :
  ~ (forall (st : ViewState) (k : LiveKey),
        let st' := onActions [AIChat.setLiveKey k] st in
        liveKey st' = ofLiveKey k /\ mode st' = mode st
        /\ histKey st' = histKey st /\ chartType st' = chartType st
        /\ disabledParams st' = disabledParams st).
Proof.
  intros H.
  specialize (H (mkViewState history f1h fYesterday [] "line") live12h).
  cbv in H. destruct H as [_ [H _]]. discriminate H.
Qed.

(** C9 (amended): [setLiveKey] writes the live window and sets the mode
    to realtime; the history range, the chart type and the hidden
    parameters stay as they were.  [setHistKey] writes the history range
    and sets the mode to history; the live window, the chart type and
    the hidden parameters stay as they were. *)
Theorem setLiveKey_setHistKey_frame (st : ViewState) :
  (forall k : LiveKey,
      let st' := onActions [AIChat.setLiveKey k] st in
      liveKey st' = ofLiveKey k /\ mode st' = realtime
      /\ histKey st' = histKey st /\ chartType st' = chartType st
      /\ disabledParams st' = disabledParams st)
  /\
  (forall k : HistKey,
      let st' := onActions [AIChat.setHistKey k] st in
      histKey st' = ofHistKey k /\ mode st' = history
      /\ liveKey st' = liveKey st /\ chartType st' = chartType st
      /\ disabledParams st' = disabledParams st).
Proof. split; intros k; cbn; repeat split. Qed.
(* ------------------------------------------------------------------ *)
(** ** Further properties: case and white space *)

Lemma lowerChar_idem (c : ascii) : lowerChar (lowerChar c) = lowerChar c.
Proof. destruct c as [[] [] [] [] [] [] [] []]; reflexivity. Qed.

Lemma isWhiteSpace_lowerChar (c : ascii) :
  isWhiteSpace (lowerChar c) = isWhiteSpace c.
Proof. destruct c as [[] [] [] [] [] [] [] []]; reflexivity. Qed.

Lemma toLowerCase_idem (s : string) :
  toLowerCase (toLowerCase s) = toLowerCase s.
Proof.
  induction s as [|c s IH]; [reflexivity|].
  simpl. rewrite lowerChar_idem, IH. reflexivity.
Qed.

Lemma trimStart_toLowerCase (s : string) :
  trimStart (toLowerCase s) = toLowerCase (trimStart s).
Proof.
  induction s as [|c s IH]; [reflexivity|].
  cbn [toLowerCase trimStart]. rewrite isWhiteSpace_lowerChar.
  destruct (isWhiteSpace c); [exact IH | reflexivity].
Qed.

Lemma trimEnd_toLowerCase (s : string) :
  trimEnd (toLowerCase s) = toLowerCase (trimEnd s).
Proof.
  induction s as [|c s IH]; [reflexivity|].
  cbn [toLowerCase trimEnd]. rewrite IH, isWhiteSpace_lowerChar.
  destruct (trimEnd s); cbn [toLowerCase];
    [destruct (isWhiteSpace c)|]; reflexivity.
Qed.

Lemma trim_toLowerCase (s : string) :
  trim (toLowerCase s) = toLowerCase (trim s).
Proof.
  unfold trim. rewrite trimStart_toLowerCase. apply trimEnd_toLowerCase.
Qed.

Lemma trimEnd_idem (s : string) : trimEnd (trimEnd s) = trimEnd s.
Proof.
  induction s as [|c s IH]; [reflexivity|].
  cbn [trimEnd]. destruct (trimEnd s) as [|d t] eqn:E.
  - destruct (isWhiteSpace c) eqn:Hc; [reflexivity|].
    cbn [trimEnd]. rewrite Hc. reflexivity.
  - cbn [trimEnd] in IH |- *. 
    change (match trimEnd (String d t) with
            | EmptyString => if isWhiteSpace c then EmptyString
                             else String c EmptyString
            | String a u => String c (String a u)
            end = String c (String d t)).
    cbn [trimEnd]. rewrite IH. reflexivity.
Qed.

(** The result of [trimStart] does not begin with white space. *)
Lemma trimStart_trimmed (s : string) : trimmedStart (trimStart s).
Proof.
  induction s as [|c s IH]; [exact I|].
  cbn [trimStart]. destruct (isWhiteSpace c) eqn:Hc; [exact IH | exact Hc].
Qed.

Lemma trimStart_fixed (s : string) : trimmedStart s -> trimStart s = s.
Proof.
  destruct s as [|c s]; [reflexivity|]. intros Hc.
  cbn [trimStart]. cbn in Hc. rewrite Hc. reflexivity.
Qed.

Lemma trimEnd_trimmedStart (s : string) :
  trimmedStart s -> trimmedStart (trimEnd s).
Proof.
  destruct s as [|c s]; [intros _; exact I|]. intros Hc. cbn in Hc.
  rewrite trimEnd_cons by exact Hc. exact Hc.
Qed.

Lemma trim_idem (s : string) : trim (trim s) = trim s.
Proof.
  unfold trim.
  rewrite (trimStart_fixed (trimEnd (trimStart s))).
  - apply trimEnd_idem.
  - apply trimEnd_trimmedStart, trimStart_trimmed.
Qed.

(** X1: the interpretation does not depend on the case of the letters of
    the query nor on white space around it. *)
Theorem interpretQuery_case_and_space_insensitive (raw : string) :
  interpretQuery (toLowerCase raw) = interpretQuery raw
  /\ interpretQuery (trim raw) = interpretQuery raw
  /\ interpretQuery (trim (toLowerCase raw)) = interpretQuery raw.
Proof.
  repeat split; apply interpretQuery_normal_form.
  - rewrite toLowerCase_idem. reflexivity.
  - rewrite !trim_toLowerCase, trim_idem. reflexivity.
  - rewrite !trim_toLowerCase, toLowerCase_idem, trim_idem. reflexivity.
Qed.

(** X2: a query that is empty or holds white space only gets the
    fallback result. *)
Theorem blank_query_is_unclear (raw : string) :
  trim raw = EmptyString -> interpretQuery raw = unclear.
Proof.
  intros H. unfold interpretQuery.
  rewrite trim_toLowerCase, H. vm_compute. reflexivity.
Qed.

Lemma blank_query_is_unclear_witness :
  trim "   " = EmptyString /\ interpretQuery "   " = unclear.
Proof.
  split; [reflexivity|].
  apply (blank_query_is_unclear "   "). reflexivity.
Defined.

(* ------------------------------------------------------------------ *)
(** ** Further properties: the alias resolver *)

Lemma arrayIncludes_In (l : list string) (x : string) :
  arrayIncludes l x = true <-> In x l.
Proof.
  unfold arrayIncludes. rewrite existsb_exists. split.
  - intros [y [Hy E]]. apply String.eqb_eq in E. subst y. exact Hy.
  - intros H. exists x. split; [exact H | apply String.eqb_refl].
Qed.

Lemma arrayIncludes_false (l : list string) (x : string) :
  arrayIncludes l x = false <-> ~ In x l.
Proof.
  rewrite <- arrayIncludes_In. destruct (arrayIncludes l x); split;
    intros H; try reflexivity; try discriminate; try (intros E; discriminate E).
  exfalso. apply H. reflexivity.
Qed.

Lemma lookup_In (k v : string) (d : Dict) :
  lookup k d = Some v -> In (k, v) d.
Proof.
  induction d as [|[k' v'] d IH]; [discriminate|].
  cbn [lookup]. destruct (String.eqb k k') eqn:E.
  - intros H. injection H as <-. apply String.eqb_eq in E. subst k'.
    left. reflexivity.
  - intros H. right. apply IH. exact H.
Qed.

Lemma insert_In (cmp : string -> string -> Z) (x y : string)
      (l : list string) :
  In y (insert cmp x l) <-> y = x \/ In y l.
Proof.
  induction l as [|z l IH]; cbn [insert].
  - split; [intros [<- | []]; left; reflexivity | intros [-> | []]; left;
            reflexivity].
  - destruct (cmp x z <=? 0)%Z.
    + split; [intros [<- | H]; [left; reflexivity | right; exact H]
             | intros [-> | H]; [left; reflexivity | right; exact H]].
    + cbn [In]. rewrite IH. tauto.
Qed.

(** Sorting keeps the elements. *)
Lemma sort_In (cmp : string -> string -> Z) (y : string) (l : list string) :
  In y (sort cmp l) <-> In y l.
Proof.
  induction l as [|x l IH]; [reflexivity|].
  cbn [sort]. rewrite insert_In, IH. cbn [In]. split; intros [H | H]; auto.
Qed.

Lemma resolveStep_In (q : string) (found : list string)
      (alias pid : string) :
  In pid (resolveStep q found alias) <->
  In pid found \/
  (lookup alias PARAM_ALIASES = Some pid /\ includes q alias = true).
Proof.
  unfold resolveStep.
  destruct (lookup alias PARAM_ALIASES) as [p|];
    [|split; [auto | intros [H | [H _]]; [exact H | discriminate H]]].
  destruct (includes q alias);
    [|split; [auto | intros [H | [_ H]]; [exact H | discriminate H]]].
  destruct (arrayIncludes found p) eqn:Hin; cbn [andb negb].
  - apply arrayIncludes_In in Hin. split; [auto|].
    intros [H | [H _]]; [exact H|]. injection H as <-. exact Hin.
  - rewrite in_app_iff. cbn [In]. split.
    + intros [H | [<- | []]]; [left; exact H | right; split; reflexivity].
    + intros [H | [H _]]; [left; exact H|]. injection H as <-.
      right. left. reflexivity.
Qed.

Lemma resolveFold_In (q : string) (l found : list string) (pid : string) :
  In pid (fold_left (resolveStep q) l found) <->
  In pid found \/
  exists alias, In alias l /\ lookup alias PARAM_ALIASES = Some pid
                /\ includes q alias = true.
Proof.
  revert found. induction l as [|a l IH]; intros found; cbn [fold_left].
  - split; [auto | intros [H | [x [[] _]]]; exact H].
  - rewrite IH, resolveStep_In. split.
    + intros [[H | [H1 H2]] | [x [Hx H]]].
      * left. exact H.
      * right. exists a. split; [left; reflexivity | split; assumption].
      * right. exists x. split; [right; exact Hx | exact H].
    + intros [H | [x [[<- | Hx] H]]].
      * left. left. exact H.
      * left. right. exact H.
      * right. exists x. split; assumption.
Qed.

Lemma resolveParams_In_iff (q pid : string) :
  In pid (resolveParams q) <->
  exists alias, lookup alias PARAM_ALIASES = Some pid
                /\ includes q alias = true.
Proof.
  unfold resolveParams. rewrite resolveFold_In. split.
  - intros [[] | [alias [_ H]]]. exists alias. exact H.
  - intros [alias [H1 H2]]. right. exists alias.
    split; [|split; assumption].
    apply sort_In. unfold keys.
    apply lookup_In in H1. apply (in_map fst) in H1. exact H1.
Qed.

(** X3: the resolver finds a parameter exactly when one of the aliases
    of the parameter occurs in the query. *)
Theorem resolveParams_sound_complete (q pid : string) :
  In pid (resolveParams q) <->
  exists alias, lookup alias PARAM_ALIASES = Some pid
                /\ includes q alias = true.
Proof. exact (resolveParams_In_iff q pid). Qed.

(** Every identifier in the alias table is in the catalogue and has a
    label. *)
Lemma alias_targets_known (alias pid : string) :
  lookup alias PARAM_ALIASES = Some pid ->
  In pid Catalogue.ids /\ exists l, lookup pid PARAM_LABELS = Some l.
Proof.
  intros H. apply lookup_In in H.
  assert (F : Forall (fun e : string * string =>
                        In (snd e) Catalogue.ids /\
                        exists l, lookup (snd e) PARAM_LABELS = Some l)
                     PARAM_ALIASES).
  { repeat (apply Forall_cons;
            [split; [apply arrayIncludes_In; reflexivity
                    | eexists; reflexivity]|]).
    apply Forall_nil. }
  rewrite Forall_forall in F. exact (F _ H).
Qed.

Lemma resolveParams_known (q pid : string) :
  In pid (resolveParams q) ->
  In pid Catalogue.ids /\ exists l, lookup pid PARAM_LABELS = Some l.
Proof.
  intros Hin. apply resolveParams_In_iff in Hin.
  destruct Hin as [alias [Hl _]]. exact (alias_targets_known _ _ Hl).
Qed.

Lemma resolveParams_in_catalogue_length (q : string) :
  List.length (resolveParams q) <= 5.
Proof.
  change 5 with (List.length Catalogue.ids).
  apply NoDup_incl_length; [apply resolveParams_NoDup|].
  intros pid Hin. exact (proj1 (resolveParams_known q pid Hin)).
Qed.

(** X4: whatever the query, the resolver returns identifiers of the
    catalogue, each with a display label, none of them twice, and so
    five at most. *)
Theorem resolveParams_in_catalogue (q : string) :
  (forall pid, In pid (resolveParams q) ->
               In pid Catalogue.ids
               /\ exists l, lookup pid PARAM_LABELS = Some l)
  /\ NoDup (resolveParams q)
  /\ List.length (resolveParams q) <= 5.
Proof.
  assert (H : forall pid, In pid (resolveParams q) ->
                          In pid Catalogue.ids
                          /\ exists l, lookup pid PARAM_LABELS = Some l).
  { intros pid. apply resolveParams_known. }
  split; [exact H|]. split; [apply resolveParams_NoDup|].
  apply resolveParams_in_catalogue_length.
Qed.

(** X5: every parameter of the catalogue can be named by its own
    identifier: a query that holds the identifier resolves to it. *)
Theorem resolveParams_own_identifier (q pid : string) :
  In pid Catalogue.ids -> includes q pid = true ->
  In pid (resolveParams q).
Proof.
  intros Hid Hq. apply resolveParams_In_iff. exists pid.
  split; [|exact Hq].
  cbv in Hid.
  destruct Hid as [<- | [<- | [<- | [<- | [<- | []]]]]]; reflexivity.
Qed.

Lemma resolveParams_own_identifier_witness :
  In "b_ann" (resolveParams "please hide b_ann now").
Proof.
  apply (resolveParams_own_identifier "please hide b_ann now" "b_ann");
    [right; right; left; reflexivity | vm_compute; reflexivity].
Defined.

(* ------------------------------------------------------------------ *)
(** ** Further properties: the interpreter *)

Lemma pressure_params_known : incl PRESSURE_PARAMS Catalogue.ids.
Proof.
  intros p Hp. apply arrayIncludes_In.
  destruct Hp as [<- | [<- | [<- | [<- | []]]]]; reflexivity.
Qed.

(** The forms that the action list of a result can take. *)
Lemma interpretQuery_actions_shape (raw : string) :
  let q := trim (toLowerCase raw) in
  let acts := AIChat.actions (interpretQuery raw) in
  acts = []
  \/ (exists a, acts = [a] /\ incl (Catalogue.actionParams a) Catalogue.ids)
  \/ acts = map hideParam (resolveParams q)
  \/ acts = map showParam (resolveParams q).
Proof.
  unfold interpretQuery. cbv zeta.
  generalize (trim (toLowerCase raw)). intros q.
  repeat branch; cbn [AIChat.actions];
    first [ left; reflexivity
          | right; right; left; reflexivity
          | right; right; right; reflexivity
          | right; left; eexists; split; [reflexivity|];
            cbn [Catalogue.actionParams];
            first [ apply incl_nil_l
                  | apply pressure_params_known
                  | intros p Hp; exact (proj1 (resolveParams_known q p Hp)) ] ].
Qed.

(** X6: every parameter identifier that an action of the interpreter
    carries is an identifier of the catalogue. *)
Theorem interpretQuery_params_in_catalogue (raw : string)
        (a : DashboardAction) (p : string) :
  In a (AIChat.actions (interpretQuery raw)) ->
  In p (Catalogue.actionParams a) ->
  In p Catalogue.ids.
Proof.
  intros Ha Hp.
  destruct (interpretQuery_actions_shape raw) as [E | [[b [E Hb]] | [E | E]]];
    rewrite E in Ha.
  - destruct Ha.
  - destruct Ha as [<- | []]. exact (Hb p Hp).
  - apply in_map_iff in Ha. destruct Ha as [x [<- Hx]].
    destruct Hp as [<- | []]. exact (proj1 (resolveParams_known _ _ Hx)).
  - apply in_map_iff in Ha. destruct Ha as [x [<- Hx]].
    destruct Hp as [<- | []]. exact (proj1 (resolveParams_known _ _ Hx)).
Qed.

Lemma interpretQuery_params_in_catalogue_witness :
  In "b_ann" Catalogue.ids.
Proof.
  apply (interpretQuery_params_in_catalogue
           "hide b-annulus and tubing" (hideParam "b_ann") "b_ann");
    vm_compute; auto.
Defined.

(** X7: a result holds at most one action, or one [hideParam] for each
    resolved parameter, or one [showParam] for each resolved parameter;
    it never holds more than five actions. *)
Theorem interpretQuery_actions_homogeneous (raw : string) :
  let q := trim (toLowerCase raw) in
  let acts := AIChat.actions (interpretQuery raw) in
  (List.length acts <= 1
   \/ acts = map hideParam (resolveParams q)
   \/ acts = map showParam (resolveParams q))
  /\ List.length acts <= 5.
Proof.
  cbv zeta.
  pose proof (resolveParams_in_catalogue_length (trim (toLowerCase raw)))
    as Hlen.
  destruct (interpretQuery_actions_shape raw) as [E | [[b [E Hb]] | [E | E]]];
    rewrite E.
  - split; [left|]; cbn; lia.
  - split; [left|]; cbn; lia.
  - split; [right; left; reflexivity | rewrite length_map; exact Hlen].
  - split; [right; right; reflexivity | rewrite length_map; exact Hlen].
Qed.

(** X8: at the per-parameter step, a hide word without a show word
    hides every resolved parameter, in the order of the resolver, and
    the reply lists their labels. *)
Theorem hide_without_show_hides (raw : string) :
  let q := trim (toLowerCase raw) in
  reachesParamStep q = true ->
  resolveParams q <> [] ->
  test re_hide q = true ->
  test re_show q = false ->
  interpretQuery raw
  = mkInterpretation ("Hidden: " ++ names (resolveParams q) ++ ".")
                     (map hideParam (resolveParams q)).
Proof.
  unfold reachesParamStep, chartTypeCommits, pressureGroup, interpretQuery.
  cbv zeta. generalize (trim (toLowerCase raw)).
  intros q H Hres Hhide Hshow.
  split_tests H.
  assert (Hlen : Nat.ltb 0 (List.length (resolveParams q)) = true).
  { destruct (resolveParams q) eqn:E; [congruence | reflexivity]. }
  rewrite Hlen, Hhide.
  destruct (exec re_chartType q); fail_tests; reflexivity.
Qed.

Lemma hide_without_show_hides_witness :
  interpretQuery "Remove the temp, tbg"
  = mkInterpretation "Hidden: Flowline Temperature, Tubing Pressure."
                     [hideParam "flowline_t"; hideParam "tubing"].
Proof.
  apply (hide_without_show_hides "Remove the temp, tbg");
    vm_compute; (reflexivity || discriminate).
Defined.

(** X9: at the per-parameter step a show word prevails over a hide
    word: when both occur nothing is hidden, and the resolved parameters
    are shown (or shown alone, when the query holds "only"). *)
Theorem show_prevails_over_hide (raw : string) :
  let q := trim (toLowerCase raw) in
  reachesParamStep q = true ->
  resolveParams q <> [] ->
  test re_show q = true ->
  interpretQuery raw
  = if test re_only q
    then mkInterpretation ("Showing only: " ++ names (resolveParams q) ++ ".")
                          [showOnlyParams (resolveParams q)]
    else mkInterpretation ("Showing: " ++ names (resolveParams q) ++ ".")
                          (map showParam (resolveParams q)).
Proof.
  unfold reachesParamStep, chartTypeCommits, pressureGroup, interpretQuery.
  cbv zeta. generalize (trim (toLowerCase raw)).
  intros q H Hres Hshow.
  split_tests H.
  assert (Hlen : Nat.ltb 0 (List.length (resolveParams q)) = true).
  { destruct (resolveParams q) eqn:E; [congruence | reflexivity]. }
  rewrite Hlen, Hshow.
  destruct (exec re_chartType q); fail_tests;
    rewrite andb_false_r; cbn [orb];
    destruct (test re_only q); reflexivity.
Qed.

Lemma show_prevails_over_hide_witness :
  test re_hide "hide or show tubing" = true
  /\ interpretQuery "hide or show tubing"
     = mkInterpretation "Showing: Tubing Pressure." [showParam "tubing"].
Proof.
  split; [vm_compute; reflexivity|].
  apply (show_prevails_over_hide "hide or show tubing");
    vm_compute; (reflexivity || discriminate).
Defined.

(** *** Where the chart word of a match stands *)

Lemma lastChar_cons (a : ascii) (s : string) :
  lastChar (String a s)
  = match lastChar s with Some c => Some c | None => Some a end.
Proof.
  destruct s as [|b s]; [reflexivity|].
  change (lastChar (String a (String b s))) with (lastChar (String b s)).
  revert b. induction s as [|c s IH]; intros b; [reflexivity|].
  change (lastChar (String b (String c s))) with (lastChar (String c s)).
  destruct (lastChar (String c s)) eqn:E; [reflexivity|].
  specialize (IH c). rewrite E in IH. exact IH.
Qed.

Lemma eat_before (p : ascii -> bool) (cur c' : cursor) :
  In c' (eat p cur) ->
  exists a, p a = true /\ rest cur = String a (rest c')
            /\ before c' = Some a.
Proof.
  unfold eat. destruct (rest cur) as [|a t]; [intros []|].
  destruct (p a) eqn:Hp; [|intros []].
  intros [<- | []]. exists a. repeat split. exact Hp.
Qed.

(** After a literal that is not empty, the character before the cursor
    is the last character of the literal. *)
Lemma matcher_lit_before (s : string) :
  forall cur c', s <> EmptyString -> In c' (matcher (lit s) cur) ->
                 before c' = lastChar s.
Proof.
  induction s as [|a t IH]; intros cur c' Hne Hin; [congruence|].
  destruct t as [|b t'].
  - apply eat_before in Hin. destruct Hin as [x [Hx [_ Hb]]].
    apply Ascii.eqb_eq in Hx. subst x. exact Hb.
  - change (lit (String a (String b t')))
      with (Cat (Chr a) (lit (String b t'))) in Hin.
    cbn [matcher] in Hin. apply in_flat_map in Hin.
    destruct Hin as [c1 [_ H2]].
    apply IH in H2; [|discriminate].
    rewrite H2. reflexivity.
Qed.

Lemma matcher_words_before (l : list string) :
  forall cur c',
    l <> [] -> Forall (fun w => w <> EmptyString) l ->
    In c' (matcher (words l) cur) ->
    exists w, In w l /\ rest cur = w ++ rest c' /\ before c' = lastChar w.
Proof.
  unfold words.
  induction l as [|s l IH]; intros cur c' Hne Hall Hin; [congruence|].
  assert (Hs : s <> EmptyString) by (inversion Hall; assumption).
  assert (Hl : Forall (fun w => w <> EmptyString) l)
    by (inversion Hall; assumption).
  destruct l as [|s' l'].
  - exists s. split; [left; reflexivity|].
    split; [apply (matcher_lit s cur c'); exact Hin
           | apply (matcher_lit_before s cur c' Hs); exact Hin].
  - change (alt (map lit (s :: s' :: l')))
      with (Alt (lit s) (alt (map lit (s' :: l')))) in Hin.
    cbn [matcher] in Hin. apply in_app_or in Hin.
    destruct Hin as [Hin | Hin].
    + exists s. split; [left; reflexivity|].
      split; [apply (matcher_lit s cur c'); exact Hin
             | apply (matcher_lit_before s cur c' Hs); exact Hin].
    + destruct (IH cur c') as [x [Hx Hr]];
        [discriminate | exact Hl | exact Hin |].
      exists x. split; [right; exact Hx | exact Hr].
Qed.

(** A successful search ends a match that started after some prefix of
    the input, with the last character of the prefix before it. *)
Lemma search_at (r : regex) (s : string) :
  forall prev c,
    search r prev s = Some c ->
    exists pre s',
      s = pre ++ s'
      /\ In c (matcher r (mkCursor
                            match lastChar pre with
                            | Some a => Some a
                            | None => prev
                            end s' [])).
Proof.
  induction s as [|a t IH]; intros prev c H; simpl in H.
  - destruct (matcher r (mkCursor prev "" [])) as [|c0 l] eqn:E;
      [discriminate H|].
    injection H as <-. exists "", "". split; [reflexivity|].
    cbn [lastChar]. rewrite E. left. reflexivity.
  - destruct (matcher r (mkCursor prev (String a t) [])) as [|c0 l] eqn:E.
    + apply IH in H. destruct H as [pre [s' [Ht Hin]]].
      exists (String a pre), s'. split; [cbn; rewrite Ht; reflexivity|].
      rewrite lastChar_cons.
      destruct (lastChar pre); exact Hin.
    + injection H as <-. exists "", (String a t). split; [reflexivity|].
      cbn [lastChar]. rewrite E. left. reflexivity.
Qed.

Lemma wordB_cond (cur c : cursor) :
  In c (matcher WordB cur) ->
  c = cur /\ xorb (wordBefore cur) (wordAfter cur) = true.
Proof.
  cbn [matcher]. destruct (xorb _ _); [|intros []].
  intros [<- | []]. split; reflexivity.
Qed.

(** The match of the chart-type pattern: group 1 holds a chart word, and
    that word stands in the query as a whole word. *)
Lemma chartType_match_word (q : string) (m : list (nat * string)) :
  exec re_chartType q = Some m ->
  exists w pre post,
    q = pre ++ w ++ post /\ In w chartWords /\ wholeWord pre post
    /\ group 1 m = Some w.
Proof.
  unfold exec. destruct (search re_chartType None q) as [c|] eqn:E;
    [|discriminate].
  intros H. injection H as <-.
  apply search_at in E. destruct E as [pre [s' [Hq Hin]]].
  assert (Hprev : match lastChar pre with
                  | Some a => Some a
                  | None => None
                  end = lastChar pre) by (destruct (lastChar pre); reflexivity).
  rewrite Hprev in Hin. clear Hprev.
  set (cur := mkCursor (lastChar pre) s' []) in Hin.
  change (In c (flat_map
                  (fun c1 => flat_map (matcher WordB)
                               (map (capture 1 c1)
                                    (matcher (words chartWords) c1)))
                  (matcher WordB cur))) in Hin.
  apply in_flat_map in Hin. destruct Hin as [c1 [H1 H2]].
  apply wordB_cond in H1. destruct H1 as [-> Hb1].
  apply in_flat_map in H2. destruct H2 as [c2 [H2 H3]].
  apply wordB_cond in H3. destruct H3 as [-> Hb2].
  apply in_map_iff in H2. destruct H2 as [c' [<- Hc']].
  apply matcher_words_before in Hc';
    [|discriminate
     |repeat (apply Forall_cons; [discriminate|]); apply Forall_nil].
  destruct Hc' as [w [Hw [Hr Hbefore]]].
  exists w, pre, (rest c'). cbn [rest cur] in Hr.
  split; [rewrite Hq, Hr; reflexivity|]. split; [exact Hw|].
  assert (Hfirst : wordAfter cur = true /\
                   match lastChar w with
                   | Some a => isWordChar a
                   | None => false
                   end = true).
  { unfold wordAfter. cbn [rest cur]. rewrite Hr.
    destruct Hw as [<- | [<- | [<- | [<- | [<- | []]]]]];
      split; reflexivity. }
  destruct Hfirst as [Hafter Hlast].
  split; [split|].
  - rewrite Hafter in Hb1. unfold wordBefore in Hb1. cbn [before cur] in Hb1.
    destruct (lastChar pre) as [a|]; [|exact I].
    destruct (isWordChar a); [discriminate Hb1 | reflexivity].
  - unfold wordBefore, wordAfter, capture in Hb2. cbn [before rest] in Hb2.
    rewrite Hbefore, Hlast in Hb2.
    destruct (rest c') as [|a t]; [exact I|].
    destruct (isWordChar a); [discriminate Hb2 | reflexivity].
  - unfold capture, remaining. cbn [caps group Nat.eqb rest cur].
    rewrite Hr, take_prefix. reflexivity.
Qed.

(** X10: a chart word together with an action verb or a chart noun is
    decided first.  The query then holds one of the five chart words as
    a whole word, and whatever else it holds, the result is the one
    [setChartType] action for that word: the word itself, and column
    for bar. *)
Theorem chart_type_has_priority (raw : string) :
  let q := trim (toLowerCase raw) in
  chartTypeCommits q = true ->
  exists w pre post : string,
    q = pre ++ w ++ post /\ In w chartWords /\ wholeWord pre post
    /\ option_map (group 1) (exec re_chartType q) = Some (Some w)
    /\ let ct := if String.eqb w "bar" then "column" else w in
       interpretQuery raw
       = mkInterpretation ("Switched to " ++ ct ++ " chart type.")
                          [AIChat.setChartType ct].
Proof.
  unfold chartTypeCommits, interpretQuery. cbv zeta.
  generalize (trim (toLowerCase raw)). intros q H.
  destruct (exec re_chartType q) as [m|] eqn:E; [|discriminate H].
  destruct (chartType_match_word q m E) as [w [pre [post [Hq [Hw [Hb Hg]]]]]].
  exists w, pre, post. repeat (split; [assumption|]).
  split; [cbn [option_map]; rewrite Hg; reflexivity|].
  rewrite H. unfold chartTypeOf, group1. rewrite Hg. reflexivity.
Qed.

Lemma chart_type_has_priority_witness :
  interpretQuery "hide tubing and use a spline chart for yesterday"
  = mkInterpretation "Switched to spline chart type."
                     [AIChat.setChartType "spline"]
  /\ interpretQuery "Make it a BAR graph"
     = mkInterpretation "Switched to column chart type."
                        [AIChat.setChartType "column"].
Proof.
  split.
  - destruct (chart_type_has_priority
                "hide tubing and use a spline chart for yesterday" eq_refl)
      as [w [pre [post [_ [_ [_ [Hg Hr]]]]]]].
    vm_compute in Hg. injection Hg as <-. exact Hr.
  - destruct (chart_type_has_priority "Make it a BAR graph" eq_refl)
      as [w [pre [post [_ [_ [_ [Hg Hr]]]]]]].
    vm_compute in Hg. injection Hg as <-. exact Hr.
Defined.

(** Witness of [interpretQuery_chartType_closed]. *)
Lemma interpretQuery_chartType_closed_witness :
  isChartType "column" = true.
Proof.
  apply (interpretQuery_chartType_closed "bar" "column").
  vm_compute. left. reflexivity.
Defined.

(** X12: each of the sixteen suggestion chips is understood by the
    local interpreter: it gets exactly one action, never the fallback. *)
Theorem suggestions_understood :
  Forall (fun s => exists a, AIChat.actions (interpretQuery s) = [a])
         AIChatComponent.ALL_SUGGESTIONS.
Proof.
  unfold AIChatComponent.ALL_SUGGESTIONS.
  repeat (apply Forall_cons; [eexists; vm_compute; reflexivity|]).
  apply Forall_nil.
Qed.

(* ------------------------------------------------------------------ *)
(** ** Further properties: the remote delegate *)

(** X13: one call of the delegate issues at most one request; a request
    carries the query as it was given and the key, trimmed, as bearer
    token. *)
Theorem callOpenAI_one_request (apiKeyEnv : option string)
        (fetch : Request -> FetchOutcome) (userMessage : string) :
  let requests := snd (callOpenAI apiKeyEnv fetch userMessage) in
  List.length requests <= 1
  /\ forall req, In req requests ->
       userContent req = userMessage
       /\ exists key, apiKeyEnv = Some key
                      /\ authorization req = "Bearer " ++ trim key.
Proof.
  unfold callOpenAI.
  destruct apiKeyEnv as [key|]; cbn [option_map];
    [|split; [cbn; lia | intros req []]].
  destruct (String.eqb (trim key) "" || startsWith (trim key) "sk-...");
    [split; [cbn; lia | intros req []]|].
  assert (G : forall r : Interpretation,
             let requests :=
               snd (r, [mkRequest ("Bearer " ++ trim key) userMessage]) in
             List.length requests <= 1
             /\ forall req, In req requests ->
                  userContent req = userMessage
                  /\ exists key0, Some key = Some key0
                       /\ authorization req = "Bearer " ++ trim key0).
  { intros r. cbn [snd]. split; [cbn; lia|].
    intros req [<- | []]. split; [reflexivity|].
    exists key. split; reflexivity. }
  destruct (fetch _) as [|status code msg|result]; try apply G.
  destruct (Nat.eqb status 429 || _); apply G.
Qed.

(** X14: with a configured key, whenever the remote party does not
    deliver a body that parses (the call is rejected, or the status is
    not OK, be it 429, a quota error or any other), the result is the
    one of the local interpreter. *)
Theorem callOpenAI_falls_back (apiKeyEnv : option string)
        (fetch : Request -> FetchOutcome) (userMessage : string) :
  (forall req result, fetch req <> Parsed result) ->
  fst (callOpenAI apiKeyEnv fetch userMessage) = interpretQuery userMessage.
Proof.
  intros Hfetch. unfold callOpenAI.
  destruct (option_map trim apiKeyEnv) as [key|]; [|reflexivity].
  destruct (String.eqb key "" || startsWith key "sk-..."); [reflexivity|].
  destruct (fetch _) as [|status code msg|result] eqn:E.
  - reflexivity.
  - destruct (Nat.eqb status 429 || _); reflexivity.
  - exfalso. exact (Hfetch _ _ E).
Qed.

Lemma callOpenAI_falls_back_witness :
  fst (callOpenAI (Some "sk-live")
                  (fun _ => NotOk 401 None (Some "bad key")) "show all")
  = interpretQuery "show all"
  /\ interpretQuery "show all"
     = mkInterpretation "All parameters are now visible." [showAllParams].
Proof.
  split; [|vm_compute; reflexivity].
  apply (callOpenAI_falls_back
           (Some "sk-live") (fun _ => NotOk 401 None (Some "bad key"))
           "show all").
  intros req result. discriminate.
Defined.

(* ------------------------------------------------------------------ *)
(** ** Further properties: the set of hidden parameters *)

Lemma has_In (s : JsSet.t) (x : string) : JsSet.has s x = true <-> In x s.
Proof. apply arrayIncludes_In. Qed.

Lemma has_app (s1 s2 : list string) (x : string) :
  JsSet.has (s1 ++ s2)%list x = JsSet.has s1 x || JsSet.has s2 x.
Proof. unfold JsSet.has, arrayIncludes. apply existsb_app. Qed.

Lemma has_add (s : JsSet.t) (x y : string) :
  JsSet.has (JsSet.add s x) y = JsSet.has s y || String.eqb y x.
Proof.
  unfold JsSet.add. destruct (JsSet.has s x) eqn:Hx.
  - destruct (String.eqb y x) eqn:E; [|rewrite orb_false_r; reflexivity].
    apply String.eqb_eq in E. subst y. rewrite Hx. reflexivity.
  - rewrite has_app. unfold JsSet.has at 2, arrayIncludes. cbn [existsb].
    rewrite orb_false_r. reflexivity.
Qed.

Lemma add_NoDup (s : JsSet.t) (x : string) :
  NoDup s -> NoDup (JsSet.add s x).
Proof.
  intros H. unfold JsSet.add. destruct (JsSet.has s x) eqn:Hx; [exact H|].
  apply NoDup_app; [exact H | apply NoDup_cons; [intros [] | constructor] |].
  intros y Hy [<- | []]. apply has_In in Hy. congruence.
Qed.

Lemma add_present (s : JsSet.t) (x : string) :
  In x s -> JsSet.add s x = s.
Proof.
  intros H. unfold JsSet.add. apply has_In in H. rewrite H. reflexivity.
Qed.

Lemma addAll_has (l : list string) :
  forall (s : JsSet.t) (y : string),
    JsSet.has (fold_left JsSet.add l s) y = JsSet.has s y || arrayIncludes l y.
Proof.
  induction l as [|x l IH]; intros s y; cbn [fold_left].
  - unfold arrayIncludes. cbn. rewrite orb_false_r. reflexivity.
  - rewrite IH, has_add. unfold arrayIncludes. cbn [existsb].
    rewrite orb_assoc. reflexivity.
Qed.

Lemma addAll_NoDup (l : list string) :
  forall s : JsSet.t, NoDup s -> NoDup (fold_left JsSet.add l s).
Proof.
  induction l as [|x l IH]; intros s H; cbn [fold_left]; [exact H|].
  apply IH, add_NoDup, H.
Qed.

Lemma addAll_present (l : list string) :
  forall s : JsSet.t, incl l s -> fold_left JsSet.add l s = s.
Proof.
  induction l as [|x l IH]; intros s H; cbn [fold_left]; [reflexivity|].
  rewrite add_present by (apply H; left; reflexivity).
  apply IH. intros y Hy. apply H. right. exact Hy.
Qed.

Lemma addAll_fresh (l : list string) :
  forall s : JsSet.t, NoDup (s ++ l) -> fold_left JsSet.add l s = (s ++ l)%list.
Proof.
  induction l as [|x l IH]; intros s H; cbn [fold_left].
  - rewrite app_nil_r. reflexivity.
  - assert (Hx : JsSet.has s x = false).
    { apply arrayIncludes_false. apply NoDup_remove_2 in H.
      intros Hin. apply H. apply in_or_app. left. exact Hin. }
    assert (Ha : JsSet.add s x = (s ++ [x])%list)
      by (unfold JsSet.add; rewrite Hx; reflexivity).
    rewrite Ha.
    rewrite IH; rewrite <- app_assoc; [reflexivity | exact H].
Qed.

(** [new Set(iterable)] holds what the iterable holds, each once; on an
    iterable without repetition it changes nothing. *)
Lemma ofArray_has (l : list string) (y : string) :
  JsSet.has (JsSet.ofArray l) y = arrayIncludes l y.
Proof. unfold JsSet.ofArray. rewrite addAll_has. reflexivity. Qed.

Lemma ofArray_NoDup (l : list string) : NoDup (JsSet.ofArray l).
Proof. apply addAll_NoDup. constructor. Qed.

Lemma ofArray_fixed (s : JsSet.t) : NoDup s -> JsSet.ofArray s = s.
Proof. intros H. unfold JsSet.ofArray. apply (addAll_fresh s []). exact H. Qed.

Lemma ofArray_app (l1 l2 : list string) :
  JsSet.ofArray (l1 ++ l2) = fold_left JsSet.add l2 (JsSet.ofArray l1).
Proof. unfold JsSet.ofArray. apply fold_left_app. Qed.

Lemma ofArray_ofArray_app (l1 l2 : list string) :
  JsSet.ofArray (JsSet.ofArray l1 ++ l2) = JsSet.ofArray (l1 ++ l2).
Proof.
  rewrite !ofArray_app, (ofArray_fixed (JsSet.ofArray l1)); [reflexivity|].
  apply ofArray_NoDup.
Qed.

Lemma delete_has (s : JsSet.t) (x y : string) :
  JsSet.has (JsSet.delete s x) y = JsSet.has s y && negb (String.eqb y x).
Proof.
  unfold JsSet.delete, JsSet.has, arrayIncludes.
  induction s as [|z s IH]; [reflexivity|].
  cbn [filter existsb]. destruct (String.eqb z x) eqn:Ez; cbn [negb existsb].
  - rewrite IH. apply String.eqb_eq in Ez. subst z.
    destruct (String.eqb y x); [|reflexivity].
    cbn [negb orb]. rewrite !andb_false_r. reflexivity.
  - rewrite IH. destruct (String.eqb y z) eqn:Ey; [|reflexivity].
    apply String.eqb_eq in Ey. subst z. rewrite Ez. reflexivity.
Qed.

Lemma delete_NoDup (s : JsSet.t) (x : string) :
  NoDup s -> NoDup (JsSet.delete s x).
Proof. apply NoDup_filter. Qed.

Lemma delete_absent (s : JsSet.t) (x : string) :
  ~ In x s -> JsSet.delete s x = s.
Proof.
  intros H. unfold JsSet.delete. induction s as [|z s IH]; [reflexivity|].
  cbn [filter]. destruct (String.eqb z x) eqn:E.
  - apply String.eqb_eq in E. subst z. exfalso. apply H. left. reflexivity.
  - cbn [negb]. rewrite IH; [reflexivity|].
    intros Hin. apply H. right. exact Hin.
Qed.

Lemma delete_idem (s : JsSet.t) (x : string) :
  JsSet.delete (JsSet.delete s x) x = JsSet.delete s x.
Proof.
  apply delete_absent. intros H. apply has_In in H.
  rewrite delete_has, String.eqb_refl, andb_false_r in H. discriminate H.
Qed.

Lemma hide_show_membership_aux (st : ViewState) (p x : string) :
  JsSet.has (disabledParams (applyAction st (hideParam p))) x
  = JsSet.has (disabledParams st) x || String.eqb x p
  /\ JsSet.has (disabledParams (applyAction st (showParam p))) x
     = JsSet.has (disabledParams st) x && negb (String.eqb x p).
Proof.
  cbn [applyAction setDisabledParams disabledParams]. split.
  - rewrite ofArray_has. unfold arrayIncludes. rewrite existsb_app.
    cbn [existsb]. rewrite orb_false_r. reflexivity.
  - rewrite delete_has, ofArray_has. reflexivity.
Qed.

(** X15: [hideParam] and [showParam] edit the membership of one
    parameter: after [hideParam p] the hidden parameters are [p] and
    those hidden before; after [showParam p] they are those hidden
    before except [p].  The other parameters keep their state. *)
Theorem hide_show_membership (st : ViewState) (p x : string) :
  JsSet.has (disabledParams (applyAction st (hideParam p))) x
  = JsSet.has (disabledParams st) x || String.eqb x p
  /\ JsSet.has (disabledParams (applyAction st (showParam p))) x
     = JsSet.has (disabledParams st) x && negb (String.eqb x p).
Proof. exact (hide_show_membership_aux st p x). Qed.

(** X16: [showOnlyParams] hides exactly the parameters of the catalogue
    that the action does not list, whatever was hidden before, and
    [showAllParams] hides nothing. *)
Theorem showOnly_hides_complement (st : ViewState) (params : list string)
        (x : string) :
  (JsSet.has (disabledParams (applyAction st (showOnlyParams params))) x = true
   <-> In x Catalogue.ids /\ ~ In x params)
  /\ JsSet.has (disabledParams (applyAction st showAllParams)) x = false.
Proof.
  cbn [applyAction setDisabledParams disabledParams]. split; [|reflexivity].
  rewrite ofArray_has, arrayIncludes_In, filter_In, negb_true_iff,
    arrayIncludes_false. reflexivity.
Qed.

Lemma applyAction_twice (st : ViewState) (a : DashboardAction) :
  applyAction (applyAction st a) a = applyAction st a.
Proof.
  destruct st as [m lk hk d c].
  destruct a as [params| |p|p|m'|k|k|c'];
    cbv [applyAction setDisabledParams LiveChart.setMode LiveChart.setLiveKey
         LiveChart.setHistKey LiveChart.setChartType
         mode liveKey histKey disabledParams chartType];
    try reflexivity; f_equal.
  - change (JsSet.ofArray (JsSet.ofArray (d ++ [p]) ++ [p])
            = JsSet.ofArray (d ++ [p])).
    rewrite ofArray_app, (ofArray_fixed _ (ofArray_NoDup _)).
    cbn [fold_left]. apply add_present. apply has_In.
    rewrite ofArray_has. apply arrayIncludes_In, in_or_app.
    right. left. reflexivity.
  - change (JsSet.delete (JsSet.ofArray (JsSet.delete (JsSet.ofArray d) p)) p
            = JsSet.delete (JsSet.ofArray d) p).
    rewrite (ofArray_fixed (JsSet.delete (JsSet.ofArray d) p)).
    + apply delete_idem.
    + apply delete_NoDup, ofArray_NoDup.
Qed.

(** X17: applying an action a second time changes nothing. *)
Theorem applyAction_idempotent (st : ViewState) (a : DashboardAction) :
  applyAction (applyAction st a) a = applyAction st a.
Proof. exact (applyAction_twice st a). Qed.

(** X18: hiding a visible parameter and showing it again gives back the
    view-state, when the set held no identifier twice. *)
Theorem hide_then_show_restores (st : ViewState) (p : string) :
  NoDup (disabledParams st) ->
  JsSet.has (disabledParams st) p = false ->
  applyAction (applyAction st (hideParam p)) (showParam p) = st.
Proof.
  destruct st as [m lk hk d c]. cbn [disabledParams]. intros Hnd Hp.
  cbv [applyAction setDisabledParams
       mode liveKey histKey disabledParams chartType].
  f_equal.
  rewrite (ofArray_fixed _ (ofArray_NoDup _)).
  assert (Hfresh : NoDup (d ++ [p])).
  { apply NoDup_app; [exact Hnd | apply NoDup_cons; [intros [] | constructor] |].
    intros y Hy [<- | []]. apply has_In in Hy. congruence. }
  rewrite (ofArray_fixed _ Hfresh).
  unfold JsSet.delete. rewrite filter_app. cbn [filter].
  rewrite String.eqb_refl. cbn [negb]. rewrite app_nil_r.
  apply delete_absent. apply arrayIncludes_false. exact Hp.
Qed.

Lemma hide_then_show_restores_witness :
  let st := mkViewState realtime f1h fYesterday ["b_ann"] "line" in
  applyAction (applyAction st (hideParam "tubing")) (showParam "tubing") = st.
Proof.
  apply (hide_then_show_restores
           (mkViewState realtime f1h fYesterday ["b_ann"] "line") "tubing").
  - repeat constructor. intros [].
  - reflexivity.
Defined.

(* ------------------------------------------------------------------ *)
(** ** Further properties: the interpreter's actions on the view-state *)

(** The hidden set after a run of [hideParam] actions. *)
Lemma hideAll_eq (l : list string) :
  forall d : JsSet.t,
    l <> [] ->
    fold_left (fun prev p => JsSet.ofArray (prev ++ [p])%list) l d
    = JsSet.ofArray (d ++ l).
Proof.
  induction l as [|p l IH]; intros d Hne; [congruence|].
  cbn [fold_left]. destruct l as [|p' l'].
  - reflexivity.
  - rewrite IH by discriminate.
    rewrite ofArray_ofArray_app, <- app_assoc. reflexivity.
Qed.

(** The hidden set after a run of [showParam] actions. *)
Lemma showAll_eq (l : list string) :
  forall d : JsSet.t,
    l <> [] ->
    fold_left (fun prev p => JsSet.delete (JsSet.ofArray prev) p) l d
    = filter (fun y => negb (arrayIncludes l y)) (JsSet.ofArray d).
Proof.
  induction l as [|p l IH]; intros d Hne; [congruence|].
  cbn [fold_left]. destruct l as [|p' l'].
  - cbn [fold_left]. unfold JsSet.delete. apply filter_ext. intros y.
    unfold arrayIncludes. cbn [existsb]. rewrite orb_false_r. reflexivity.
  - rewrite IH by discriminate.
    rewrite (ofArray_fixed (JsSet.delete (JsSet.ofArray d) p))
      by (apply delete_NoDup, ofArray_NoDup).
    unfold JsSet.delete.
    induction (JsSet.ofArray d) as [|z s IHs]; [reflexivity|].
    cbn [filter]. unfold arrayIncludes at 2. cbn [existsb].
    fold (arrayIncludes (p' :: l') z).
    destruct (String.eqb z p) eqn:E; cbn [negb orb filter].
    + exact IHs.
    + rewrite IHs. reflexivity.
Qed.

Lemma onActions_setDisabled (f : string -> DashboardAction)
      (g : JsSet.t -> string -> JsSet.t) (l : list string) :
  (forall st p, applyAction st (f p)
                = setDisabledParams (fun prev => g prev p) st) ->
  forall st, onActions (map f l) st
             = setDisabledParams (fun prev => fold_left g l prev) st.
Proof.
  intros Hf. unfold onActions.
  induction l as [|p l IH]; intros st; cbn [map fold_left].
  - destruct st; reflexivity.
  - rewrite Hf, IH. destruct st; reflexivity.
Qed.

Lemma onActions_hideAll (l : list string) (st : ViewState) :
  onActions (map hideParam l) st
  = setDisabledParams
      (fun prev => fold_left (fun d p => JsSet.ofArray (d ++ [p])%list) l prev)
      st.
Proof. apply onActions_setDisabled. reflexivity. Qed.

Lemma onActions_showAll (l : list string) (st : ViewState) :
  onActions (map showParam l) st
  = setDisabledParams
      (fun prev =>
         fold_left (fun d p => JsSet.delete (JsSet.ofArray d) p) l prev)
      st.
Proof. apply onActions_setDisabled. reflexivity. Qed.

Lemma filter_idem {A : Type} (f : A -> bool) (l : list A) :
  filter f (filter f l) = filter f l.
Proof.
  induction l as [|x l IH]; [reflexivity|].
  cbn [filter]. destruct (f x) eqn:E; [|exact IH].
  cbn [filter]. rewrite E, IH. reflexivity.
Qed.

(** X19: giving the same query twice is harmless: applying the actions
    of a result to the view-state they produced changes nothing. *)
Theorem interpreted_actions_idempotent (raw : string) (st : ViewState) :
  let acts := AIChat.actions (interpretQuery raw) in
  onActions acts (onActions acts st) = onActions acts st.
Proof.
  cbv zeta.
  destruct (interpretQuery_actions_shape raw) as [E | [[a [E _]] | [E | E]]];
    rewrite E.
  - reflexivity.
  - unfold onActions. cbn [fold_left]. apply applyAction_twice.
  - destruct (resolveParams _) as [|p l] eqn:R; [reflexivity|].
    rewrite !onActions_hideAll. destruct st as [m lk hk d c].
    cbv [setDisabledParams mode liveKey histKey disabledParams chartType].
    f_equal. rewrite !hideAll_eq by discriminate.
    rewrite ofArray_app, (ofArray_fixed _ (ofArray_NoDup _)).
    apply addAll_present. intros y Hy. apply has_In.
    rewrite ofArray_has. apply arrayIncludes_In, in_or_app. right. exact Hy.
  - destruct (resolveParams _) as [|p l] eqn:R; [reflexivity|].
    rewrite !onActions_showAll. destruct st as [m lk hk d c].
    cbv [setDisabledParams mode liveKey histKey disabledParams chartType].
    f_equal. rewrite !showAll_eq by discriminate.
    rewrite (ofArray_fixed (filter _ (JsSet.ofArray d)))
      by (apply NoDup_filter, ofArray_NoDup).
    apply filter_idem.
Qed.

(** X20: after the consumer has applied the actions of a result, every
    parameter of a [hideParam] action in it is hidden and every
    parameter of a [showParam] action in it is visible. *)
Theorem interpreted_hide_show_effect (raw : string) (st : ViewState)
        (p : string) :
  let acts := AIChat.actions (interpretQuery raw) in
  (In (hideParam p) acts ->
   LiveChartData.visible (onActions acts st) p = false)
  /\ (In (showParam p) acts ->
      LiveChartData.visible (onActions acts st) p = true).
Proof.
  cbv zeta. unfold LiveChartData.visible.
  destruct (interpretQuery_actions_shape raw) as [E | [[a [E _]] | [E | E]]];
    rewrite E.
  - split; intros [].
  - unfold onActions. cbn [fold_left].
    split; intros [-> | []];
      rewrite (proj1 (hide_show_membership_aux st p p))
      || rewrite (proj2 (hide_show_membership_aux st p p));
      rewrite String.eqb_refl; cbn [negb];
        [rewrite orb_true_r | rewrite andb_false_r]; reflexivity.
  - split; intros H; apply in_map_iff in H; destruct H as [x [Hx Hin]];
      [|discriminate Hx].
    injection Hx as ->.
    rewrite onActions_hideAll. destruct st as [m lk hk d c].
    cbv [setDisabledParams mode liveKey histKey disabledParams chartType].
    rewrite hideAll_eq by (intros N; rewrite N in Hin; destruct Hin).
    rewrite ofArray_has.
    replace (arrayIncludes (d ++ resolveParams (trim (toLowerCase raw))) p)
      with true; [reflexivity|].
    symmetry. apply arrayIncludes_In, in_or_app. right. exact Hin.
  - split; intros H; apply in_map_iff in H; destruct H as [x [Hx Hin]];
      [discriminate Hx|].
    injection Hx as ->.
    rewrite onActions_showAll. destruct st as [m lk hk d c].
    cbv [setDisabledParams mode liveKey histKey disabledParams chartType].
    rewrite showAll_eq by (intros N; rewrite N in Hin; destruct Hin).
    apply negb_true_iff, arrayIncludes_false. intros Hf.
    apply filter_In in Hf. destruct Hf as [_ Hf].
    apply negb_true_iff, arrayIncludes_false in Hf. exact (Hf Hin).
Qed.

Lemma interpreted_hide_show_effect_witness :
  LiveChartData.visible
    (onActions (AIChat.actions (interpretQuery "hide b-annulus and tubing"))
               (mkViewState realtime f1h fYesterday [] "line"))
    "tubing" = false.
Proof.
  apply (interpreted_hide_show_effect
           "hide b-annulus and tubing"
           (mkViewState realtime f1h fYesterday [] "line") "tubing").
  vm_compute. right. left. reflexivity.
Defined.

(** X21: a click on a parameter of the legend flips that parameter
    between hidden and visible and leaves the others as they are; a
    second click gives back what was visible. *)
Theorem toggleParam_flips (st : ViewState) (i x : string) :
  LiveChartData.visible (LiveChartData.toggleParam i st) x
  = (if String.eqb x i then negb (LiveChartData.visible st x)
     else LiveChartData.visible st x)
  /\ LiveChartData.visible
       (LiveChartData.toggleParam i (LiveChartData.toggleParam i st)) x
     = LiveChartData.visible st x.
Proof.
  assert (H : forall st, LiveChartData.visible (LiveChartData.toggleParam i st) x
            = (if String.eqb x i then negb (LiveChartData.visible st x)
               else LiveChartData.visible st x)).
  { clear st. intros st.
    unfold LiveChartData.visible, LiveChartData.toggleParam.
    cbn [setDisabledParams disabledParams].
    destruct (JsSet.has (JsSet.ofArray (disabledParams st)) i) eqn:Hi.
    - rewrite delete_has, ofArray_has.
      destruct (String.eqb x i) eqn:E.
      + apply String.eqb_eq in E. subst x. rewrite ofArray_has in Hi.
        unfold JsSet.has. rewrite Hi. reflexivity.
      + cbn [negb]. rewrite andb_true_r. reflexivity.
    - rewrite has_add, ofArray_has.
      destruct (String.eqb x i) eqn:E.
      + apply String.eqb_eq in E. subst x. rewrite ofArray_has in Hi.
        unfold JsSet.has. rewrite Hi. reflexivity.
      + rewrite orb_false_r. reflexivity. }
  split; [apply H|].
  rewrite H, H. destruct (String.eqb x i); [apply negb_involutive | reflexivity].
Qed.

(* ------------------------------------------------------------------ *)
(** ** Further properties: the chat component *)

(** X22: [send] does nothing on an empty or blank input, and nothing
    while an earlier query is still loading: the state stays as it is,
    no message is appended, no action is applied and no request is
    issued. *)
Theorem send_rejects (apiKeyEnv : option string)
        (fetch : Request -> FetchOutcome) (txt : string) (now1 now2 : Z)
        (app : AIChatComponent.App) :
  trim txt = EmptyString
  \/ AIChatComponent.loading (AIChatComponent.chat app) = true ->
  AIChatComponent.send apiKeyEnv fetch txt now1 now2 app = (app, []).
Proof.
  intros H. unfold AIChatComponent.send, AIChatComponent.sendBegin.
  destruct H as [-> | ->]; [reflexivity|].
  rewrite orb_true_r. reflexivity.
Qed.

Lemma send_rejects_witness :
  let app := AIChatComponent.mkApp
               (AIChatComponent.mkChatState "" false [] [])
               (mkViewState realtime f1h fYesterday [] "line") in
  AIChatComponent.send None (fun _ => Rejected) "  " 1%Z 2%Z app = (app, []).
Proof.
  apply (send_rejects None (fun _ => Rejected) "  " 1%Z 2%Z).
  left. reflexivity.
Defined.

(** The result of the delegate is the one of the local interpreter when
    the delegate is not configured, and when the remote party delivers
    no parsed body. *)
Lemma callOpenAI_local_result (apiKeyEnv : option string)
      (fetch : Request -> FetchOutcome) (userMessage : string) :
  NotConfigured apiKeyEnv
  \/ (forall req result, fetch req <> Parsed result) ->
  fst (callOpenAI apiKeyEnv fetch userMessage) = interpretQuery userMessage.
Proof.
  intros [H | Hfetch].
  - rewrite callOpenAI_guard; [reflexivity|].
    destruct H as [-> | [key [-> [Hkey | Hkey]]]]; [exact I | |].
    + left. exact Hkey.
    + right. apply startsWith_placeholder_trim. exact Hkey.
  - unfold callOpenAI.
    destruct (option_map trim apiKeyEnv) as [key|]; [|reflexivity].
    destruct (String.eqb key "" || startsWith key "sk-..."); [reflexivity|].
    destruct (fetch _) as [|status code msg|result] eqn:E.
    + reflexivity.
    + destruct (Nat.eqb status 429 || _); reflexivity.
    + exfalso. exact (Hfetch _ _ E).
Qed.

(** X23: an accepted [send] that is answered by the local interpreter
    (the delegate is not configured, or the remote party delivers no
    parsed body) appends exactly two messages, the trimmed query of the
    user and then the reply of the assistant with its actions; the
    interpreter gets the trimmed query, its actions are applied to the
    view-state, the input is emptied and [loading] ends cleared. *)
Theorem send_accepts (apiKeyEnv : option string)
        (fetch : Request -> FetchOutcome) (txt : string) (now1 now2 : Z)
        (app : AIChatComponent.App) :
  trim txt <> EmptyString ->
  AIChatComponent.loading (AIChatComponent.chat app) = false ->
  NotConfigured apiKeyEnv
  \/ (forall req result, fetch req <> Parsed result) ->
  let result := interpretQuery (trim txt) in
  let app' := fst (AIChatComponent.send apiKeyEnv fetch txt now1 now2 app) in
  AIChatComponent.messages (AIChatComponent.chat app')
  = (AIChatComponent.messages (AIChatComponent.chat app)
     ++ [AIChatComponent.mkMessage now1 AIChatComponent.user (trim txt) None;
         AIChatComponent.mkMessage now2 AIChatComponent.assistant
           (reply result) (Some (AIChat.actions result))])%list
  /\ AIChatComponent.view app'
     = onActions (AIChat.actions result) (AIChatComponent.view app)
  /\ AIChatComponent.input (AIChatComponent.chat app') = EmptyString
  /\ AIChatComponent.loading (AIChatComponent.chat app') = false
  /\ AIChatComponent.usedChips (AIChatComponent.chat app')
     = AIChatComponent.usedChips (AIChatComponent.chat app)
  /\ snd (AIChatComponent.send apiKeyEnv fetch txt now1 now2 app)
     = snd (callOpenAI apiKeyEnv fetch (trim txt)).
Proof.
  intros Hq Hl Hlocal. cbv zeta.
  pose proof (callOpenAI_local_result apiKeyEnv fetch (trim txt) Hlocal)
    as Hres.
  unfold AIChatComponent.send, AIChatComponent.sendBegin.
  rewrite Hl. apply String.eqb_neq in Hq. rewrite Hq. cbn [orb].
  destruct (callOpenAI apiKeyEnv fetch (trim txt)) as [result requests].
  cbn [fst] in Hres. subst result.
  cbn [fst snd]. unfold AIChatComponent.sendResume.
  cbn [AIChatComponent.chat AIChatComponent.view AIChatComponent.messages
       AIChatComponent.input AIChatComponent.loading
       AIChatComponent.usedChips AIChatComponent.setLoading
       AIChatComponent.addMessage AIChatComponent.setInput].
  repeat split.
  - rewrite <- app_assoc. reflexivity.
  - destruct (AIChat.actions (interpretQuery (trim txt))); reflexivity.
Qed.

Lemma send_accepts_witness :
  let app := AIChatComponent.mkApp
               (AIChatComponent.mkChatState "Hide tubing " false [] [])
               (mkViewState realtime f1h fYesterday [] "line") in
  let app' := fst (AIChatComponent.send
                     (Some "sk-live")
                     (fun _ => NotOk 500 None None)
                     "Hide tubing " 1%Z 2%Z app) in
  AIChatComponent.view app'
  = mkViewState realtime f1h fYesterday ["tubing"] "line"
  /\ AIChatComponent.messages (AIChatComponent.chat app')
     = [ AIChatComponent.mkMessage 1%Z AIChatComponent.user "Hide tubing"
                                   None;
         AIChatComponent.mkMessage 2%Z AIChatComponent.assistant
           "Hidden: Tubing Pressure." (Some [hideParam "tubing"]) ].
Proof.
  cbv zeta.
  destruct (send_accepts (Some "sk-live") (fun _ => NotOk 500 None None)
              "Hide tubing " 1%Z 2%Z
              (AIChatComponent.mkApp
                 (AIChatComponent.mkChatState "Hide tubing " false [] [])
                 (mkViewState realtime f1h fYesterday [] "line"))
              ltac:(vm_compute; discriminate)
              ltac:(reflexivity)
              ltac:(right; intros req result; discriminate))
    as [Hm [Hv _]].
  split; [rewrite Hv | rewrite Hm]; vm_compute; reflexivity.
Defined.

(** X24: queries are handled one at a time: once [send] has started a
    query, every further [send] returns at once until the first one has
    resumed, and the resumed [send] accepts queries again. *)
Theorem send_single_flight (txt : string) (now : Z)
        (c c' : AIChatComponent.ChatState) (query : string) :
  AIChatComponent.sendBegin txt now c = Some (query, c') ->
  (forall txt2 now2, AIChatComponent.sendBegin txt2 now2 c' = None)
  /\ (forall result now2 v,
         AIChatComponent.loading
           (AIChatComponent.chat
              (AIChatComponent.sendResume result now2
                 (AIChatComponent.mkApp c' v))) = false).
Proof.
  unfold AIChatComponent.sendBegin.
  destruct (String.eqb (trim txt) "" || AIChatComponent.loading c);
    [discriminate|].
  intros H. injection H as <- <-. split.
  - intros txt2 now2. cbn [AIChatComponent.loading AIChatComponent.setLoading].
    rewrite orb_true_r. reflexivity.
  - reflexivity.
Qed.

Lemma send_single_flight_witness :
  AIChatComponent.sendBegin "again" 9%Z
    (AIChatComponent.mkChatState "" true []
       [AIChatComponent.mkMessage 5%Z AIChatComponent.user "hi" None])
  = None.
Proof.
  apply (proj1 (send_single_flight "hi " 5%Z
                  (AIChatComponent.mkChatState "hi " false [] [])
                  (AIChatComponent.mkChatState "" true []
                     [AIChatComponent.mkMessage 5%Z AIChatComponent.user
                                                "hi" None])
                  "hi" eq_refl)).
Defined.

(** X25: four chips are shown at every moment, all of them different
    suggestions of the table; as long as four suggestions are unused,
    none of the chips shown has been used. *)
Theorem visibleChips_four (used : JsSet.t) :
  let chips := AIChatComponent.visibleChips used in
  List.length chips = 4
  /\ NoDup chips
  /\ incl chips AIChatComponent.ALL_SUGGESTIONS
  /\ (4 <= List.length
             (filter (fun s => negb (JsSet.has used s))
                     AIChatComponent.ALL_SUGGESTIONS) ->
      forall s, In s chips -> JsSet.has used s = false).
Proof.
  cbv zeta. unfold AIChatComponent.visibleChips, AIChatComponent.CHIPS_VISIBLE.
  set (unused := filter (fun s => negb (JsSet.has used s))
                        AIChatComponent.ALL_SUGGESTIONS).
  assert (Hall : NoDup AIChatComponent.ALL_SUGGESTIONS).
  { unfold AIChatComponent.ALL_SUGGESTIONS.
    repeat (apply NoDup_cons;
            [intros H; apply arrayIncludes_In in H; discriminate H|]).
    apply NoDup_nil. }
  assert (Hfirst : forall n (l : list string),
             NoDup l -> NoDup (firstn n l)).
  { intros n l Hl. rewrite <- (firstn_skipn n l) in Hl.
    apply NoDup_app_remove_r in Hl. exact Hl. }
  assert (Hin : forall n (l : list string), incl (firstn n l) l).
  { intros n l x Hx. rewrite <- (firstn_skipn n l).
    apply in_or_app. left. exact Hx. }
  destruct (Nat.leb 4 (List.length unused)) eqn:E.
  - apply Nat.leb_le in E. repeat split.
    + rewrite length_firstn. lia.
    + apply Hfirst, NoDup_filter, Hall.
    + intros x Hx. apply Hin in Hx. apply filter_In in Hx. exact (proj1 Hx).
    + intros _ s Hs. apply Hin in Hs. apply filter_In in Hs.
      apply negb_true_iff. exact (proj2 Hs).
  - apply Nat.leb_gt in E. repeat split.
    + apply Hfirst, Hall.
    + apply Hin.
    + intros Hge. lia.
Qed.

Lemma visibleChips_four_witness :
  AIChatComponent.visibleChips ["Show only pressure sensors"]
  = [ "Switch to 1-week history"; "Show flowline temperature only";
      "Switch to spline chart"; "Show all parameters" ]
  /\ List.length
       (AIChatComponent.visibleChips ["Show only pressure sensors"]) = 4.
Proof.
  split; [vm_compute; reflexivity|].
  exact (proj1 (visibleChips_four ["Show only pressure sensors"])).
Defined.

(** X26: a click on a chip marks the chip as used in every case, also
    when the query it sends is not accepted because an earlier one is
    still loading. *)
Theorem sendChip_marks_used (apiKeyEnv : option string)
        (fetch : Request -> FetchOutcome) (txt : string) (now1 now2 : Z)
        (app : AIChatComponent.App) :
  JsSet.has
    (AIChatComponent.usedChips
       (AIChatComponent.chat
          (fst (AIChatComponent.sendChip apiKeyEnv fetch txt now1 now2 app))))
    txt = true.
Proof.
  unfold AIChatComponent.sendChip, AIChatComponent.send,
    AIChatComponent.sendBegin.
  cbn [AIChatComponent.chat AIChatComponent.view AIChatComponent.loading
       AIChatComponent.setUsedChips].
  assert (H : JsSet.has
                (JsSet.ofArray
                   (AIChatComponent.usedChips (AIChatComponent.chat app)
                    ++ [txt])) txt = true).
  { rewrite ofArray_has. apply arrayIncludes_In, in_or_app.
    right. left. reflexivity. }
  destruct (String.eqb (trim txt) "" || _); [exact H|].
  destruct (callOpenAI apiKeyEnv fetch (trim txt)) as [result requests].
  exact H.
Qed.

(* ------------------------------------------------------------------ *)
(** ** Further properties: the data shown *)

Section Data.

Variable V : Type.
Variable value : LiveChartData.Wave -> nat -> nat -> V.

Lemma makeSeries_length (startMs : Z) (count : nat) (stepMs : Z)
      (w : LiveChartData.Wave) :
  List.length (LiveChartData.makeSeries V value startMs count stepMs w)
  = count.
Proof.
  unfold LiveChartData.makeSeries. rewrite length_map. apply length_seq.
Qed.

Lemma makeSeries_In (startMs : Z) (count : nat) (stepMs : Z)
      (w : LiveChartData.Wave) (t : Z) (v : V) :
  In (t, v) (LiveChartData.makeSeries V value startMs count stepMs w) ->
  exists i, i < count /\ t = (startMs + Z.of_nat i * stepMs)%Z.
Proof.
  unfold LiveChartData.makeSeries. intros H. apply in_map_iff in H.
  destruct H as [i [E Hi]]. apply in_seq in Hi. injection E as <- _.
  exists i. split; [lia | reflexivity].
Qed.

Lemma makeSeries_within (startMs : Z) (count : nat) (stepMs : Z)
      (w : LiveChartData.Wave) (t : Z) (v : V) :
  (0 < stepMs)%Z ->
  In (t, v) (LiveChartData.makeSeries V value startMs count stepMs w) ->
  (startMs <= t < startMs + Z.of_nat count * stepMs)%Z.
Proof.
  intros Hpos Ht. apply makeSeries_In in Ht. destruct Ht as [i [Hi ->]].
  assert (0 <= Z.of_nat i * stepMs)%Z by nia.
  assert (Z.of_nat i * stepMs < Z.of_nat count * stepMs)%Z by nia.
  lia.
Qed.

Lemma configs_window (k : LiveFilterKey) :
  (Z.of_nat (fst (LiveChartData.configs k)) * snd (LiveChartData.configs k)
   = liveWindowMs k)%Z
  /\ (0 < snd (LiveChartData.configs k))%Z.
Proof. destruct k; split; reflexivity. Qed.

Lemma xAxisRange_live (now : Z) (count : nat) (stepMs : Z) :
  2 <= count ->
  LiveChartData.xAxisRange V
    (LiveChartData.buildLiveData V value now count stepMs)
  = Some ((now - Z.of_nat count * stepMs)%Z, (now - stepMs)%Z).
Proof.
  intros Hc. unfold LiveChartData.xAxisRange, LiveChartData.buildLiveData.
  cbn [LiveChart.PARAMS LiveChart.id LiveChartData.get String.eqb Ascii.eqb
       Bool.eqb].
  rewrite makeSeries_length.
  replace (Nat.ltb count 2) with false by (symmetry; apply Nat.ltb_ge; exact Hc).
  destruct count as [|[|n]]; [lia | lia |].
  unfold LiveChartData.makeSeries.
  match goal with
  | |- context [map ?g (List.seq 0 (S (S n)))] => set (f := g)
  end.
  assert (E1 : map f (List.seq 0 (S (S n)))
               = f 0 :: map f (List.seq 1 (S n))) by reflexivity.
  assert (E2 : rev (map f (List.seq 0 (S (S n))))
               = f (S n) :: rev (map f (List.seq 0 (S n)))).
  { rewrite (seq_S (S n) 0), map_app, rev_app_distr. reflexivity. }
  rewrite E1. cbv beta iota. rewrite <- E1, E2.
  unfold f. cbn [fst]. f_equal. f_equal; lia.
Qed.

(** X27: in realtime mode the rebuilt live data hold, for each of the
    five parameters, a series whose points all lie inside the selected
    window that ends at [now]: the number of points times the step is
    exactly 1, 12 or 24 hours.  The range of the time axis is the
    window, up to the last step. *)
Theorem live_data_fill_window (st : ViewState) (now : Z)
        (old : list (string * LiveChartData.Series V)) :
  mode st = realtime ->
  let data := LiveChartData.resetLiveData V value st now old in
  map fst data = Catalogue.ids
  /\ LiveChartData.xAxisRange V data
     = Some ((now - liveWindowMs (liveKey st))%Z,
             (now - snd (LiveChartData.configs (liveKey st)))%Z)
  /\ forall pid series,
       In (pid, series) data ->
       List.length series = fst (LiveChartData.configs (liveKey st))
       /\ forall t v, In (t, v) series ->
                      (now - liveWindowMs (liveKey st) <= t < now)%Z.
Proof.
  intros Hm. cbv zeta. unfold LiveChartData.resetLiveData. rewrite Hm.
  destruct (configs_window (liveKey st)) as [Hw Hpos].
  rewrite <- Hw.
  assert (H2 : 2 <= fst (LiveChartData.configs (liveKey st)))
    by (destruct (liveKey st); cbn; lia).
  destruct (LiveChartData.configs (liveKey st)) as [count stepMs].
  cbn [fst snd] in *. split; [reflexivity|].
  split; [apply xAxisRange_live; exact H2|].
  intros pid series Hin. unfold LiveChartData.buildLiveData in Hin.
  cbn [In] in Hin.
  assert (G : forall w,
             List.length
               (LiveChartData.makeSeries V value
                  (now - Z.of_nat count * stepMs) count stepMs w) = count
             /\ forall t v,
                  In (t, v)
                     (LiveChartData.makeSeries V value
                        (now - Z.of_nat count * stepMs) count stepMs w) ->
                  (now - Z.of_nat count * stepMs <= t < now)%Z).
  { intros w. split; [apply makeSeries_length|].
    intros t v Ht. apply (makeSeries_within _ _ _ _ _ _ Hpos) in Ht.
    lia. }
  destruct Hin as [E | [E | [E | [E | [E | []]]]]];
    injection E as _ <-; apply G.
Qed.


Lemma makeSeries_stamps (startMs : Z) (count : nat) (stepMs : Z)
      (w : LiveChartData.Wave) :
  map fst (LiveChartData.makeSeries V value startMs count stepMs w)
  = map (fun i => (startMs + Z.of_nat i * stepMs)%Z) (List.seq 0 count).
Proof.
  unfold LiveChartData.makeSeries. rewrite map_map. reflexivity.
Qed.

(** The time stamps of a history data set: every series has them all,
    from the start of the range to one step before the base time. *)
Lemma buildHistoryData_stamps (days : Z) (count : nat) (stepMs : Z)
      (pid : string) (series : LiveChartData.Series V) :
  (Z.of_nat count * stepMs = days * 86400000)%Z ->
  (0 < stepMs)%Z -> 0 < count ->
  In (pid, series)
     (LiveChartData.buildHistoryData V value days count stepMs) ->
  map fst series
  = map (fun i => (LiveChartData.T0 - days * 86400000
                   + Z.of_nat i * stepMs)%Z) (List.seq 0 count)
  /\ List.length series = count
  /\ hd_error (map fst series)
     = Some (LiveChartData.T0 - days * 86400000)%Z
  /\ nth_error (map fst series) (count - 1)
     = Some (LiveChartData.T0 - stepMs)%Z
  /\ forall t v, In (t, v) series ->
       (LiveChartData.T0 - days * 86400000 <= t < LiveChartData.T0)%Z.
Proof.
  intros Hw Hpos Hc Hin.
  unfold LiveChartData.buildHistoryData in Hin. cbn [In] in Hin.
  generalize dependent LiveChartData.T0. intros base Hin.
  assert (E : exists w,
             series = LiveChartData.makeSeries V value
                        (base - days * 24 * 3600 * 1000) count stepMs w).
  { destruct Hin as [E | [E | [E | [E | [E | []]]]]];
      injection E as _ <-; eexists; reflexivity. }
  destruct E as [w ->].
  assert (Hs : map fst (LiveChartData.makeSeries V value
                          (base - days * 24 * 3600 * 1000) count stepMs w)
               = map (fun i => (base - days * 86400000
                                + Z.of_nat i * stepMs)%Z)
                     (List.seq 0 count)).
  { rewrite makeSeries_stamps. apply map_ext. intros i. lia. }
  split; [exact Hs|]. split; [apply makeSeries_length|].
  rewrite Hs. split; [|split].
  - destruct count as [|n]; [lia|]. cbn [List.seq map hd_error].
    f_equal. lia.
  - rewrite nth_error_map, nth_error_seq.
    replace (Nat.ltb (count - 1) count) with true
      by (symmetry; apply Nat.ltb_lt; lia).
    cbn [option_map]. f_equal. nia.
  - intros t v Ht. apply (makeSeries_within _ _ _ _ _ _ Hpos) in Ht. lia.
Qed.

(** X28: each history data set covers exactly the days that its name
    says and ends at the base time.  Every series of "yesterday" holds
    96 points a quarter of an hour apart, of "1week" 168 points an hour
    apart, of "1month" 180 points four hours apart; the first point
    stands the named number of days before [T0], the last one step
    before [T0], and the points between them follow step by step. *)
Theorem history_data_cover_range (key : string)
        (data : list (string * LiveChartData.Series V)) :
  LiveChartData.get key (LiveChartData.HISTORY_DATA V value) = Some data ->
  exists (count : nat) (stepMs : Z),
    In (key, count, stepMs)
       [ ("yesterday", 96, 900000%Z); ("1week", 168, 3600000%Z);
         ("1month", 180, 14400000%Z) ]
    /\ (Z.of_nat count * stepMs = historyDays key * 86400000)%Z
    /\ map fst data = Catalogue.ids
    /\ forall pid series,
         In (pid, series) data ->
         map fst series
         = map (fun i => (LiveChartData.T0 - historyDays key * 86400000
                          + Z.of_nat i * stepMs)%Z) (List.seq 0 count)
         /\ List.length series = count
         /\ hd_error (map fst series)
            = Some (LiveChartData.T0 - historyDays key * 86400000)%Z
         /\ nth_error (map fst series) (count - 1)
            = Some (LiveChartData.T0 - stepMs)%Z
         /\ forall t v, In (t, v) series ->
              (LiveChartData.T0 - historyDays key * 86400000 <= t
               < LiveChartData.T0)%Z.
Proof.
  unfold LiveChartData.HISTORY_DATA. cbn [LiveChartData.get].
  destruct (String.eqb key "yesterday") eqn:E1;
    [|destruct (String.eqb key "1week") eqn:E2;
      [|destruct (String.eqb key "1month") eqn:E3; [|discriminate]]];
    intros H; injection H as <-; unfold historyDays;
      rewrite ?E1, ?E2, ?E3.
  - apply String.eqb_eq in E1. subst key.
    exists 96, 900000%Z. split; [left; reflexivity|].
    split; [reflexivity|]. split; [reflexivity|].
    intros pid series Hin.
    apply (buildHistoryData_stamps 1 96 900000 pid series);
      [reflexivity | reflexivity | lia | exact Hin].
  - apply String.eqb_eq in E2. subst key.
    exists 168, 3600000%Z. split; [right; left; reflexivity|].
    split; [reflexivity|]. split; [reflexivity|].
    intros pid series Hin.
    apply (buildHistoryData_stamps 7 168 3600000 pid series);
      [reflexivity | reflexivity | lia | exact Hin].
  - apply String.eqb_eq in E3. subst key.
    exists 180, 14400000%Z. split; [right; right; left; reflexivity|].
    split; [reflexivity|]. split; [reflexivity|].
    intros pid series Hin.
    apply (buildHistoryData_stamps 30 180 14400000 pid series);
      [reflexivity | reflexivity | lia | exact Hin].
Qed.



End Data.

(** Witnesses of the two statements on the data, with the sample values
    left out. *)
Lemma live_data_fill_window_witness :
  map fst
      (LiveChartData.resetLiveData unit (fun _ _ _ => tt)
         (mkViewState realtime f12h fYesterday [] "line") 1000000000%Z [])
  = Catalogue.ids.
Proof.
  apply (live_data_fill_window unit (fun _ _ _ => tt)
           (mkViewState realtime f12h fYesterday [] "line") 1000000000%Z []).
  reflexivity.
Defined.

Lemma history_data_cover_range_witness :
  exists (count : nat) (stepMs : Z),
    In ("1week", count, stepMs)
       [ ("yesterday", 96, 900000%Z); ("1week", 168, 3600000%Z);
         ("1month", 180, 14400000%Z) ]
    /\ (Z.of_nat count * stepMs = 7 * 86400000)%Z.
Proof.
  destruct (history_data_cover_range unit (fun _ _ _ => tt) "1week"
              (LiveChartData.buildHistoryData unit (fun _ _ _ => tt)
                 7 168 (60 * 60 * 1000)) eq_refl)
    as [count [stepMs [Hin [Hw _]]]].
  exists count, stepMs. split; [exact Hin | exact Hw].
Defined.
